(** * Verification of [utils/classify_workbenches.py]

    A shallow embedding of the FreeCAD-addons workbench classifier.

    The script only talks to the outside world through [pathlib] (existence
    tests, directory listings, a recursive glob) and through one file that it
    writes.  The file system is modelled as a finite tree of regular files
    and directories; a path is the list of its components below the file
    system root.  Names are compared byte for byte (POSIX semantics), there
    are no symbolic links and no permissions in the model.

    The script is embedded twice.  The first embedding resolves paths in
    the tree and nothing else; it says what the script computes.  The
    second one, module [Os], adds the ways in which the calls themselves
    fail (CPython 3.11 on Linux): a component longer than [NAME_MAX] or a
    path of [PATH_MAX] bytes or more makes [stat] fail with [ENAMETOOLONG],
    which [Path.exists] and [Path.is_dir] do not swallow; [rglob] recurses
    once per directory level and stops with [RecursionError]; text that is
    not valid UTF-8 cannot be written to the report. *)

From Stdlib Require Import List String Ascii Bool Arith Lia.
From Stdlib Require Import DecimalString.
Import ListNotations.
Open Scope string_scope.
Open Scope list_scope.
Set Warnings "-register-all".

(** ** Errors and the error monad *)

Inductive error : Type :=
| FileNotFoundError
| NotADirectoryError
| IsADirectoryError
| IndexError
| OSError_ENAMETOOLONG
| RecursionError
| UnicodeEncodeError.

Inductive result (A : Type) : Type :=
| Ok (a : A)
| Raise (e : error).

Arguments Ok {A} a.
Arguments Raise {A} e.

Definition bind {A B : Type} (m : result A) (k : A -> result B) : result B :=
  match m with
  | Ok a => k a
  | Raise e => Raise e
  end.

Notation "x <- m ;; k" := (bind m (fun x => k))
  (at level 61, m at next level, right associativity).

(** ** The file system *)

Module FS.

Inductive node : Type :=
| File (data : string)
| Dir (entries : list (string * node)).

Definition path := list string.

(** First binding of [k] in a directory listing. *)
Fixpoint assoc (k : string) (es : list (string * node)) : option node :=
  match es with
  | [] => None
  | (k', c) :: es' => if String.eqb k' k then Some c else assoc k es'
  end.

(** Resolution of a path below a node. *)
Fixpoint lookup (n : node) (p : path) : option node :=
  match p with
  | [] => Some n
  | k :: p' =>
      match n with
      | File _ => None
      | Dir es =>
          match assoc k es with
          | Some c => lookup c p'
          | None => None
          end
      end
  end.

Definition names (es : list (string * node)) : list string := map fst es.

(** A directory never lists the same name twice. *)
Fixpoint wf (n : node) : Prop :=
  match n with
  | File _ => True
  | Dir es =>
      NoDup (names es) /\
      (fix all (l : list (string * node)) : Prop :=
         match l with
         | [] => True
         | (_, c) :: l' => wf c /\ all l'
         end) es
  end.

Fixpoint nodupb (l : list string) : bool :=
  match l with
  | [] => true
  | x :: l' => negb (existsb (String.eqb x) l') && nodupb l'
  end.

Fixpoint wfb (n : node) : bool :=
  match n with
  | File _ => true
  | Dir es =>
      nodupb (names es) &&
      (fix all (l : list (string * node)) : bool :=
         match l with
         | [] => true
         | (_, c) :: l' => wfb c && all l'
         end) es
  end.

(** [Path.exists()], [Path.is_dir()], [Path.name], [path / name]. *)
Definition exists_ (fs : node) (p : path) : bool :=
  match lookup fs p with
  | Some _ => true
  | None => false
  end.

Definition is_dir (fs : node) (p : path) : bool :=
  match lookup fs p with
  | Some (Dir _) => true
  | _ => false
  end.

Definition name (p : path) : string := last p "".

Definition join (p : path) (k : string) : path := p ++ [k].

(** [str(path)] for an absolute POSIX path. *)
Definition str (p : path) : string :=
  match p with
  | [] => "/"
  | _ => String.concat "" (map (fun k => ("/" ++ k)%string) p)
  end.

(** [Path.iterdir()]: the children in listing order; raises when the path is
    missing or is not a directory. *)
Definition iterdir (fs : node) (p : path) : result (list path) :=
  match lookup fs p with
  | Some (Dir es) => Ok (map (join p) (names es))
  | Some (File _) => Raise NotADirectoryError
  | None => Raise FileNotFoundError
  end.

(** The directories of a subtree in pre-order, the starting directory
    first; this is the walk that the recursive wildcard of a glob makes. *)
Fixpoint iterate_directories (n : node) (p : path) : list path :=
  match n with
  | File _ => []
  | Dir es =>
      p :: (fix each (l : list (string * node)) : list path :=
              match l with
              | [] => []
              | (k, c) :: l' => iterate_directories c (join p k) ++ each l'
              end) es
  end.

(** [Path.rglob(k)] for a pattern [k] without wildcards: for every directory
    of the walk, the entry called [k] when there is one.  Nothing is
    produced when the starting path is not a directory. *)
Definition rglob (fs : node) (p : path) (k : string) : list path :=
  match lookup fs p with
  | Some n =>
      filter (exists_ fs) (map (fun d => join d k) (iterate_directories n p))
  | None => []
  end.

End FS.

Import FS.

(** ** The classifier *)

(** The test made on one child of a [freecad] directory. *)
Definition has_package (fs : node) (sub : path) : bool :=
  let init_file := join sub "__init__.py" in
  let gui1 := join sub "init_gui.py" in
  let gui2 := join sub "InitGui.py" in
  exists_ fs init_file && (exists_ fs gui1 || exists_ fs gui2).

(** The inner loop of [find_new_style]: [true] stands for the early
    [return True]. *)
Fixpoint scan_subs (fs : node) (subs : list path) : bool :=
  match subs with
  | [] => false
  | sub :: rest =>
      if negb (is_dir fs sub) then scan_subs fs rest
      else if has_package fs sub then true
      else scan_subs fs rest
  end.

(** The outer loop of [find_new_style]. *)
Fixpoint scan_freecad_dirs (fs : node) (ds : list path) : result bool :=
  match ds with
  | [] => Ok false
  | freecad_dir :: rest =>
      if is_dir fs freecad_dir then
        subs <- iterdir fs freecad_dir ;;
        if scan_subs fs subs then Ok true else scan_freecad_dirs fs rest
      else scan_freecad_dirs fs rest
  end.

Definition find_new_style (fs : node) (p : path) : result bool :=
  scan_freecad_dirs fs (rglob fs p "freecad").

Definition find_old_style (fs : node) (p : path) : bool :=
  let old_init := exists_ fs (join p "Init.py") || exists_ fs (join p "init.py") in
  let old_gui := exists_ fs (join p "InitGui.py") || exists_ fs (join p "initgui.py") in
  old_init && old_gui.

Record ClassificationRecord : Type := mkRecord {
  r_name : string;
  r_style : string;
  r_path : string;
  r_old_style : bool;
  r_new_style : bool
}.

Definition classify_workbench (fs : node) (p : path) : result ClassificationRecord :=
  let name := FS.name p in
  let old_style := find_old_style fs p in
  new_style <- find_new_style fs p ;;
  let style :=
    if old_style && negb new_style then "old"
    else if new_style && negb old_style then "new"
    else if old_style && new_style then "mixed"
    else "unknown" in
  Ok (mkRecord name style (str p) old_style new_style).

(** [scan_addons]: the loop over [root.iterdir()]. *)
Fixpoint scan_children (fs : node) (children : list path)
  : result (list ClassificationRecord) :=
  match children with
  | [] => Ok []
  | child :: rest =>
      if is_dir fs child && negb (String.eqb (name child) "utils") then
        r <- classify_workbench fs child ;;
        results <- scan_children fs rest ;;
        Ok (r :: results)
      else scan_children fs rest
  end.

Definition scan_addons (fs : node) (root : path)
  : result (list ClassificationRecord) :=
  children <- iterdir fs root ;;
  scan_children fs children.

(** ** The report writer *)

Module Csv.

(** The [excel] dialect of Python's [csv] module: comma separated, fields
    quoted only when needed, quotes doubled inside a quoted field, rows
    ended by carriage return and line feed. *)
Definition delimiter : ascii := ","%char.
Definition quotechar : ascii := "034"%char.
Definition cr : ascii := "013"%char.
Definition lf : ascii := "010"%char.
Definition lineterminator : string := String cr (String lf "").

Definition special (c : ascii) : bool :=
  Ascii.eqb c delimiter || Ascii.eqb c quotechar || Ascii.eqb c cr || Ascii.eqb c lf.

Fixpoint needs_quotes (s : string) : bool :=
  match s with
  | EmptyString => false
  | String c s' => special c || needs_quotes s'
  end.

Fixpoint doublequote (s : string) : string :=
  match s with
  | EmptyString => EmptyString
  | String c s' =>
      if Ascii.eqb c quotechar then String c (String c (doublequote s'))
      else String c (doublequote s')
  end.

Definition field (s : string) : string :=
  if needs_quotes s
  then String quotechar (doublequote s ++ String quotechar "")%string
  else s.

(** One call of [writer.writerow]: the text handed to the file. *)
Definition writerow (fields : list string) : string :=
  (String.concat (String delimiter "") (map field fields) ++ lineterminator)%string.

End Csv.

(** The values that a record holds, and Python's [str] of them. *)
Inductive value : Type :=
| VStr (s : string)
| VBool (b : bool).

Definition str_value (v : value) : string :=
  match v with
  | VStr s => s
  | VBool true => "True"
  | VBool false => "False"
  end.

(** The record as the dictionary that [classify_workbench] returns. *)
Definition get (row : ClassificationRecord) (key : string) : option value :=
  if String.eqb key "name" then Some (VStr (r_name row))
  else if String.eqb key "style" then Some (VStr (r_style row))
  else if String.eqb key "path" then Some (VStr (r_path row))
  else if String.eqb key "old_style" then Some (VBool (r_old_style row))
  else if String.eqb key "new_style" then Some (VBool (r_new_style row))
  else None.

Definition fieldnames : list string :=
  ["name"; "style"; "path"; "old_style"; "new_style"].

(** [DictWriter.writeheader] and [DictWriter.writerow]; a key that the
    dictionary lacks is written as the empty rest value. *)
Definition writeheader : string := Csv.writerow fieldnames.

Definition dict_to_list (row : ClassificationRecord) : list string :=
  map (fun key => match get row key with
                  | Some v => str_value v
                  | None => ""
                  end) fieldnames.

Definition writerow (row : ClassificationRecord) : string :=
  Csv.writerow (dict_to_list row).

(** The sequence of writes that [write_csv] makes on the open file. *)
Definition csv_writes (results : list ClassificationRecord) : list string :=
  fold_left (fun f row => f ++ [writerow row]) results [writeheader].

(** Replacement of the entry called [k] of a listing by [f] of it, or the
    addition of a new last entry when there is none. *)
Fixpoint put (k : string) (f : node -> result node) (absent : result node)
    (es : list (string * node)) : result (list (string * node)) :=
  match es with
  | [] => c <- absent ;; Ok [(k, c)]
  | (k', c) :: es' =>
      if String.eqb k' k then
        c' <- f c ;; Ok ((k', c') :: es')
      else
        es'' <- put k f absent es' ;; Ok ((k', c) :: es'')
  end.

(** [open(p, "w")] followed by the writes and the close: the file is created
    in an existing directory or truncated, and ends up holding [data].  A
    missing parent and a directory in the way make [open] raise. *)
Fixpoint write (n : node) (p : path) (data : string) : result node :=
  match p with
  | [] =>
      match n with
      | File _ => Ok (File data)
      | Dir _ => Raise IsADirectoryError
      end
  | k :: p' =>
      match n with
      | File _ => Raise NotADirectoryError
      | Dir es =>
          let absent :=
            match p' with
            | [] => Ok (File data)
            | _ :: _ => Raise FileNotFoundError
            end in
          es' <- put k (fun c => write c p' data) absent es ;;
          Ok (Dir es')
      end
  end.

Definition write_csv (fs : node) (results : list ClassificationRecord)
    (csv_path : path) : result node :=
  write fs csv_path (String.concat "" (csv_writes results)).

(** ** The console summary *)

Definition count_style (s : string) (results : list ClassificationRecord) : nat :=
  list_sum (map (fun r => if String.eqb (r_style r) s then 1 else 0) results).

Definition dec (n : nat) : string := NilEmpty.string_of_uint (Nat.to_uint n).

Definition rule : string := "----------------------------".

(** [print_summary]: the lines sent to standard output, one per [print]. *)
Definition print_summary (results : list ClassificationRecord) : list string :=
  let old := count_style "old" results in
  let new := count_style "new" results in
  let mixed := count_style "mixed" results in
  let unknown := count_style "unknown" results in
  [ String Csv.lf "Summary";
    rule;
    ("Total addons scanned : " ++ dec (List.length results))%string;
    ("Old-style            : " ++ dec old)%string;
    ("New-style            : " ++ dec new)%string;
    ("Mixed                : " ++ dec mixed)%string;
    ("Unknown              : " ++ dec unknown)%string;
    rule ].

(** ** The entry point *)

(** [Path.parent] and [Path.parents[1]] of an absolute path. *)
Definition parent (p : path) : path := removelast p.

Definition parents_1 (p : path) : result path :=
  match p with
  | [] | [_] => Raise IndexError
  | _ => Ok (removelast (removelast p))
  end.

(** [main], with the resolved location of the script as a parameter: the
    file system after the run and the lines printed. *)
Definition main (fs : node) (script_path : path) : result (node * list string) :=
  addons_root <- parents_1 script_path ;;
  let out := [("Scanning: " ++ str addons_root)%string] in
  results <- scan_addons fs addons_root ;;
  let csv_path := join (parent script_path) "workbench_report.csv" in
  fs' <- write_csv fs results csv_path ;;
  let out := out ++ [("CSV written to: " ++ str csv_path)%string] in
  Ok (fs', out ++ print_summary results).

(** ** The calls as the operating system answers them *)

(** Well-formed UTF-8 as a byte automaton (the table of the Unicode
    standard, which the strict codec of Python follows): no overlong
    form, no surrogate, nothing above U+10FFFF.  A file name that is not
    valid UTF-8 reaches the script with escaped bytes that the codec
    refuses to write. *)
Module Utf8.

Inductive state : Type :=
| Start        (* between two characters *)
| Tail1        (* one continuation byte to come *)
| Tail2
| Tail3
| AfterE0      (* next byte in A0..BF *)
| AfterED      (* next byte in 80..9F *)
| AfterF0      (* next byte in 90..BF *)
| AfterF4      (* next byte in 80..8F *)
| Invalid.

Definition between (lo hi : nat) (c : ascii) : bool :=
  ((lo <=? nat_of_ascii c) && (nat_of_ascii c <=? hi))%nat.

Definition step (st : state) (c : ascii) : state :=
  match st with
  | Start =>
      if between 0 127 c then Start
      else if between 194 223 c then Tail1
      else if between 224 224 c then AfterE0
      else if between 225 236 c then Tail2
      else if between 237 237 c then AfterED
      else if between 238 239 c then Tail2
      else if between 240 240 c then AfterF0
      else if between 241 243 c then Tail3
      else if between 244 244 c then AfterF4
      else Invalid
  | Tail1 => if between 128 191 c then Start else Invalid
  | Tail2 => if between 128 191 c then Tail1 else Invalid
  | Tail3 => if between 128 191 c then Tail2 else Invalid
  | AfterE0 => if between 160 191 c then Tail1 else Invalid
  | AfterED => if between 128 159 c then Tail1 else Invalid
  | AfterF0 => if between 144 191 c then Tail2 else Invalid
  | AfterF4 => if between 128 143 c then Tail2 else Invalid
  | Invalid => Invalid
  end.

Fixpoint run (st : state) (s : string) : state :=
  match s with
  | EmptyString => st
  | String c s' => run (step st c) s'
  end.

Definition valid (s : string) : bool :=
  match run Start s with
  | Start => true
  | _ => false
  end.

End Utf8.

Module Os.

Definition NAME_MAX : nat := 255.
Definition PATH_MAX : nat := 4096.

(** Resolution of a path, component by component: a regular file on the
    way is [ENOTDIR], a component that is too long for a directory entry
    is [ENAMETOOLONG], a name that the directory does not list is
    [ENOENT]. *)
Fixpoint walk (n : node) (p : path) : result node :=
  match p with
  | [] => Ok n
  | k :: p' =>
      match n with
      | File _ => Raise NotADirectoryError
      | Dir es =>
          if (NAME_MAX <? String.length k)%nat then Raise OSError_ENAMETOOLONG
          else
            match assoc k es with
            | Some c => walk c p'
            | None => Raise FileNotFoundError
            end
      end
  end.

(** [os.stat]: the text of the path has to fit in [PATH_MAX] bytes with its
    final zero. *)
Definition stat (fs : node) (p : path) : result node :=
  if (PATH_MAX <=? String.length (str p))%nat then Raise OSError_ENAMETOOLONG
  else walk fs p.

(** The errors that [Path.exists] and [Path.is_dir] turn into [False]. *)
Definition ignore_error (e : error) : bool :=
  match e with
  | FileNotFoundError | NotADirectoryError => true
  | _ => false
  end.

Definition exists_ (fs : node) (p : path) : result bool :=
  match stat fs p with
  | Ok _ => Ok true
  | Raise e => if ignore_error e then Ok false else Raise e
  end.

Definition is_dir (fs : node) (p : path) : result bool :=
  match stat fs p with
  | Ok (Dir _) => Ok true
  | Ok (File _) => Ok false
  | Raise e => if ignore_error e then Ok false else Raise e
  end.

(** [os.scandir] and [Path.iterdir]: nothing is swallowed. *)
Definition scandir (fs : node) (p : path) : result (list (string * node)) :=
  n <- stat fs p ;;
  match n with
  | Dir es => Ok es
  | File _ => Raise NotADirectoryError
  end.

Definition iterdir (fs : node) (p : path) : result (list path) :=
  es <- scandir fs p ;;
  Ok (map (join p) (names es)).

(** [a or b] and [a and b] of Python: [b] runs only when [a] does not
    decide. *)
Definition or_else (a b : result bool) : result bool :=
  x <- a ;; if x then Ok true else b.

Definition and_then (a b : result bool) : result bool :=
  x <- a ;; if x then b else Ok false.

Definition find_old_style (fs : node) (p : path) : result bool :=
  old_init <- or_else (exists_ fs (join p "Init.py"))
                      (exists_ fs (join p "init.py")) ;;
  old_gui <- or_else (exists_ fs (join p "InitGui.py"))
                     (exists_ fs (join p "initgui.py")) ;;
  Ok (old_init && old_gui).

Definition has_package (fs : node) (sub : path) : result bool :=
  let init_file := join sub "__init__.py" in
  let gui1 := join sub "init_gui.py" in
  let gui2 := join sub "InitGui.py" in
  and_then (exists_ fs init_file) (or_else (exists_ fs gui1) (exists_ fs gui2)).

(** The inner loop of [find_new_style]; [Ok true] is the [return True]. *)
Fixpoint scan_subs (fs : node) (subs : list path) : result bool :=
  match subs with
  | [] => Ok false
  | sub :: rest =>
      d <- is_dir fs sub ;;
      if negb d then scan_subs fs rest
      else
        found <- has_package fs sub ;;
        if found then Ok true else scan_subs fs rest
  end.

(** The body of the outer loop for one path that the glob yields. *)
Definition inspect (fs : node) (freecad_dir : path) : result bool :=
  d <- is_dir fs freecad_dir ;;
  if d then
    subs <- iterdir fs freecad_dir ;;
    scan_subs fs subs
  else Ok false.

(** What the glob does at one directory of its walk: the entry called
    [freecad] is yielded when it exists, and the body of the loop runs on
    it before the walk goes on. *)
Definition select (fs : node) (d : path) : result bool :=
  let freecad_dir := join d "freecad" in
  e <- exists_ fs freecad_dir ;;
  if e then inspect fs freecad_dir else Ok false.

(** The walk of [rglob], run together with the loop that consumes it: a
    directory is offered to the loop, then listed, then its
    subdirectories are walked in listing order, one generator deeper each;
    [fuel] is the number of nested levels that the interpreter allows. *)
Fixpoint visit (fuel : nat) (fs : node) (d : path) : result bool :=
  match fuel with
  | 0 => Raise RecursionError
  | S fuel' =>
      found <- select fs d ;;
      if found then Ok true
      else
        es <- scandir fs d ;;
        (fix each (l : list (string * node)) : result bool :=
           match l with
           | [] => Ok false
           | (k, Dir _) :: l' =>
               found <- visit fuel' fs (join d k) ;;
               if found then Ok true else each l'
           | (_, File _) :: l' => each l'
           end) es
  end.

Definition find_new_style (limit : nat) (fs : node) (p : path) : result bool :=
  d <- is_dir fs p ;;
  if d then visit limit fs p else Ok false.

Definition classify_workbench (limit : nat) (fs : node) (p : path)
  : result ClassificationRecord :=
  let name := FS.name p in
  old_style <- find_old_style fs p ;;
  new_style <- find_new_style limit fs p ;;
  let style :=
    if old_style && negb new_style then "old"
    else if new_style && negb old_style then "new"
    else if old_style && new_style then "mixed"
    else "unknown" in
  Ok (mkRecord name style (str p) old_style new_style).

Fixpoint scan_children (limit : nat) (fs : node) (children : list path)
  : result (list ClassificationRecord) :=
  match children with
  | [] => Ok []
  | child :: rest =>
      d <- is_dir fs child ;;
      if d && negb (String.eqb (name child) "utils") then
        r <- classify_workbench limit fs child ;;
        results <- scan_children limit fs rest ;;
        Ok (r :: results)
      else scan_children limit fs rest
  end.

Definition scan_addons (limit : nat) (fs : node) (root : path)
  : result (list ClassificationRecord) :=
  children <- iterdir fs root ;;
  scan_children limit fs children.

(** [open(p, "w")], the writes and the close, as [write] above, with the
    limits on names and paths. *)
Fixpoint create (n : node) (p : path) (data : string) : result node :=
  match p with
  | [] =>
      match n with
      | File _ => Ok (File data)
      | Dir _ => Raise IsADirectoryError
      end
  | k :: p' =>
      match n with
      | File _ => Raise NotADirectoryError
      | Dir es =>
          if (NAME_MAX <? String.length k)%nat then Raise OSError_ENAMETOOLONG
          else
            let absent :=
              match p' with
              | [] => Ok (File data)
              | _ :: _ => Raise FileNotFoundError
              end in
            es' <- put k (fun c => create c p' data) absent es ;;
            Ok (Dir es')
      end
  end.

Definition write (fs : node) (p : path) (data : string) : result node :=
  if (PATH_MAX <=? String.length (str p))%nat then Raise OSError_ENAMETOOLONG
  else create fs p data.

(** The writes that the text layer of the file accepts: it encodes each
    one as a whole and raises at the first that is not valid UTF-8; what
    was accepted before reaches the file when the [with] block closes
    it. *)
Fixpoint accepted (writes : list string) : list string * option error :=
  match writes with
  | [] => ([], None)
  | w :: rest =>
      if Utf8.valid w then
        let (ws, failure) := accepted rest in (w :: ws, failure)
      else ([], Some UnicodeEncodeError)
  end.

(** [write_csv]: the tree that it leaves and the exception that it raises,
    if any. *)
Definition write_csv (fs : node) (results : list ClassificationRecord)
    (csv_path : path) : node * option error :=
  let (ws, failure) := accepted (csv_writes results) in
  match write fs csv_path (String.concat "" ws) with
  | Ok fs' => (fs', failure)
  | Raise e => (fs, Some e)
  end.



End Os.

(** ** Notions used in the statements *)

(** What the specification calls "exists directly inside the directory". *)
Definition is_directory (fs : node) (d : path) : Prop :=
  exists es, lookup fs d = Some (Dir es).

Definition contains (fs : node) (d : path) (k : string) : Prop :=
  exists es, lookup fs d = Some (Dir es) /\ In k (names es).

(** The new layout as the specification words it: below [p] there is a
    directory called [freecad] with a child directory that holds
    [__init__.py] and one of the two gui initialisers. *)
Definition new_layout (fs : node) (p : path) : Prop :=
  exists (q : path) (sub : string),
    let freecad_dir := join (p ++ q) "freecad" in
    let child := join freecad_dir sub in
    is_directory fs freecad_dir /\
    is_directory fs child /\
    contains fs child "__init__.py" /\
    (contains fs child "init_gui.py" \/ contains fs child "InitGui.py").

(** What one candidate of the glob is tested for. *)
Definition candidate (fs : node) (d : path) : bool :=
  match lookup fs d with
  | Some (Dir es) =>
      existsb (fun sub => is_dir fs sub && has_package fs sub)
              (map (join d) (names es))
  | _ => false
  end.

(** The answer of [find_new_style] and the record of [classify_workbench]
    as plain functions of the tree. *)
Definition new_style_of (fs : node) (p : path) : bool :=
  existsb (candidate fs) (rglob fs p "freecad").

Definition style_of (old_style new_style : bool) : string :=
  if old_style && negb new_style then "old"
  else if new_style && negb old_style then "new"
  else if old_style && new_style then "mixed"
  else "unknown".

Definition classified (fs : node) (p : path) : ClassificationRecord :=
  mkRecord (name p)
           (style_of (find_old_style fs p) (new_style_of fs p))
           (str p)
           (find_old_style fs p)
           (new_style_of fs p).

Definition known_style (s : string) : Prop :=
  s = "old" \/ s = "new" \/ s = "mixed" \/ s = "unknown".

(** Which children of the root [scan_addons] keeps. *)
Definition scanned (fs : node) (child : path) : bool :=
  is_dir fs child && negb (String.eqb (name child) "utils").


Definition report_name : string := "workbench_report.csv".


(** [q] is the path [p] or one of its ancestors. *)
Definition is_prefix (q p : path) : Prop := exists r, p = q ++ r.

(** The names that the two detectors test for. *)
Definition marker_names : list string :=
  ["Init.py"; "init.py"; "InitGui.py"; "initgui.py"; "__init__.py"; "init_gui.py"].

(** The tree with the contents of every regular file erased. *)
Fixpoint shape (n : node) : node :=
  match n with
  | File _ => File ""
  | Dir es =>
      Dir ((fix each (l : list (string * node)) : list (string * node) :=
              match l with
              | [] => []
              | (k, c) :: l' => (k, shape c) :: each l'
              end) es)
  end.

(** Reading one field back from the text of a row; the script has no
    reader, these functions only serve to show that the writer loses
    nothing.  [take_plain] reads an unquoted field up to the next special
    character, [unquote] the body of a quoted field up to its closing
    quote. *)
Fixpoint take_plain (s : string) : string * string :=
  match s with
  | EmptyString => (EmptyString, EmptyString)
  | String c s' =>
      if Csv.special c then (EmptyString, s)
      else let (x, r) := take_plain s' in (String c x, r)
  end.

Fixpoint unquote (s : string) : option (string * string) :=
  match s with
  | EmptyString => None
  | String c s' =>
      if Ascii.eqb c Csv.quotechar then
        match s' with
        | String c2 s'' =>
            if Ascii.eqb c2 Csv.quotechar then
              match unquote s'' with
              | Some (x, r) => Some (String Csv.quotechar x, r)
              | None => None
              end
            else Some (EmptyString, s')
        | EmptyString => Some (EmptyString, EmptyString)
        end
      else
        match unquote s' with
        | Some (x, r) => Some (String c x, r)
        | None => None
        end
  end.

Definition take_field (s : string) : option (string * string) :=
  match s with
  | String c s' =>
      if Ascii.eqb c Csv.quotechar then unquote s' else Some (take_plain s)
  | EmptyString => Some (EmptyString, EmptyString)
  end.

(** One row of five fields read back: the fields and what follows the
    row. *)
Definition expect (c : ascii) (s : string) : option string :=
  match s with
  | String c' s' => if Ascii.eqb c' c then Some s' else None
  | EmptyString => None
  end.

Fixpoint read_fields (n : nat) (s : string) : option (list string * string) :=
  match n with
  | 0 => None
  | S n' =>
      match take_field s with
      | Some (x, rest) =>
          match n' with
          | 0 =>
              match expect Csv.cr rest with
              | Some rest' =>
                  match expect Csv.lf rest' with
                  | Some rest'' => Some ([x], rest'')
                  | None => None
                  end
              | None => None
              end
          | S _ =>
              match expect Csv.delimiter rest with
              | Some rest' =>
                  match read_fields n' rest' with
                  | Some (xs, rest'') => Some (x :: xs, rest'')
                  | None => None
                  end
              | None => None
              end
          end
      | None => None
      end
  end.

Definition read_row (s : string) : option (list string * string) :=
  read_fields 5 s.

(** A name that a directory entry can hold. *)
Definition okname (k : string) : Prop := String.length k <= Os.NAME_MAX.

(** A path that [stat] can follow to its end. *)
Definition reachable (q : path) : Prop :=
  Forall okname q /\ String.length (str q) < Os.PATH_MAX.




(** ** Concrete trees used as test inputs *)

Module Samples.

Definition package : node :=
  Dir [("__init__.py", File ""); ("init_gui.py", File "")].

(** Scenario A of the specification. *)
Definition addon_old : node :=
  Dir [("Init.py", File ""); ("InitGui.py", File "")].

(** Scenario B. *)
Definition addon_new : node :=
  Dir [("freecad", Dir [("mymod", package)])].

(** Scenario C. *)
Definition addon_mixed : node :=
  Dir [("Init.py", File ""); ("InitGui.py", File "");
       ("freecad", Dir [("mymod", package)])].

(** Scenario D. *)
Definition addon_empty : node := Dir [].

(** The markers are directories, and the namespace directory lies deeper. *)
Definition addon_dirs : node :=
  Dir [("init.py", Dir []); ("initgui.py", Dir []);
       ("src", Dir [("freecad", File "");
                    ("vendor", Dir [("freecad",
                       Dir [("README", File "");
                            ("pkg", Dir [("__init__.py", Dir []);
                                         ("InitGui.py", Dir [])])])])])].

Definition script : string := "classify_workbenches.py".

Definition repo : node :=
  Dir [("A", addon_old); ("README.md", File "addons");
       ("B", addon_new); ("C", addon_mixed); ("D", addon_empty);
       ("utils", Dir [(script, File "#!/usr/bin/env python3");
                      ("freecad", Dir [("x", package)])]);
       ("E", addon_dirs)].

Definition disk : node := Dir [("srv", Dir [("addons", repo)])].

Definition root : path := ["srv"; "addons"].

Definition script_path : path := ["srv"; "addons"; "utils"; script].

(** A name of 300 bytes, and a name that is not valid UTF-8 (the single
    byte E9). *)
Fixpoint replicate (n : nat) (c : ascii) : string :=
  match n with
  | 0 => EmptyString
  | S n' => String c (replicate n' c)
  end.

Definition long_name : string := replicate 300 "a"%char.

Definition latin1_name : string := String "233"%char "t".

End Samples.

(** * Properties *)

(** ** Paths and lookups *)

Section Lookup.

Lemma node_induction (P : node -> Prop) :
  (forall data, P (File data)) ->
  (forall es, Forall (fun kc => P (snd kc)) es -> P (Dir es)) ->
  forall n, P n.
Proof.
  intros HF HD.
  fix IH 1.
  intros [data | es].
  - apply HF.
  - apply HD.
    induction es as [| [k c] es IHes]; constructor.
    + apply IH.
    + exact IHes.
Qed.

Lemma assoc_names k es c : assoc k es = Some c -> In k (names es).
Proof.
  induction es as [| [k' c'] es IH]; simpl; [discriminate |].
  destruct (String.eqb_spec k' k) as [-> | Hne]; intros H.
  - now left.
  - right. now apply IH.
Qed.

Lemma names_assoc k es : In k (names es) -> exists c, assoc k es = Some c.
Proof.
  induction es as [| [k' c'] es IH]; simpl; [tauto |].
  intros [-> | Hin].
  - rewrite String.eqb_refl. now exists c'.
  - destruct (String.eqb k' k); [now exists c' | now apply IH].
Qed.


Lemma lookup_app n p q :
  lookup n (p ++ q) =
  match lookup n p with
  | Some m => lookup m q
  | None => None
  end.
Proof.
  revert n.
  induction p as [| k p IH]; intros n; simpl; [reflexivity |].
  destruct n as [data | es]; [reflexivity |].
  destruct (assoc k es) as [c |]; [apply IH | reflexivity].
Qed.

Lemma lookup_join n p k :
  lookup n (join p k) =
  match lookup n p with
  | Some (Dir es) => assoc k es
  | _ => None
  end.
Proof.
  unfold join. rewrite lookup_app.
  destruct (lookup n p) as [[data | es] |]; simpl; try reflexivity.
  now destruct (assoc k es).
Qed.

End Lookup.

Lemma is_dir_iff fs d : is_dir fs d = true <-> is_directory fs d.
Proof.
  unfold is_dir, is_directory.
  destruct (lookup fs d) as [[data | es] |]; split;
    try discriminate; try (intros [es' H]; discriminate).
  - intros _. now exists es.
  - reflexivity.
Qed.

Lemma exists_join_iff fs d k : exists_ fs (join d k) = true <-> contains fs d k.
Proof.
  unfold exists_, contains. rewrite lookup_join.
  destruct (lookup fs d) as [[data | es] |].
  - split; [discriminate | intros (es & H & _); discriminate].
  - destruct (assoc k es) as [c |] eqn:Hk; split; try reflexivity.
    + intros _. exists es. split; [reflexivity | now apply assoc_names with c].
    + discriminate.
    + intros (es' & H & Hin). injection H as <-.
      apply names_assoc in Hin as [c Hc]. congruence.
  - split; [discriminate | intros (es & H & _); discriminate].
Qed.

Lemma exists_join_lookup fs d k m :
  lookup fs (join d k) = Some m -> exists_ fs (join d k) = true.
Proof. unfold exists_. now intros ->. Qed.


(** ** The legacy-layout detector *)



(** ** The new-layout detector *)

Section NewStyle.

Variable fs : node.

Lemma scan_subs_existsb subs :
  scan_subs fs subs =
  existsb (fun sub => is_dir fs sub && has_package fs sub) subs.
Proof.
  induction subs as [| sub rest IH]; simpl; [reflexivity |].
  destruct (is_dir fs sub); simpl; [| exact IH].
  destruct (has_package fs sub); simpl; [reflexivity | exact IH].
Qed.

(** The outer loop never raises: [iterdir] is only reached behind the
    [is_dir] guard. *)
Lemma scan_freecad_dirs_existsb ds :
  scan_freecad_dirs fs ds = Ok (existsb (candidate fs) ds).
Proof.
  induction ds as [| d rest IH]; simpl; [reflexivity |].
  unfold is_dir, iterdir, candidate.
  destruct (lookup fs d) as [[data | es] |]; simpl; try exact IH.
  rewrite scan_subs_existsb.
  destruct (existsb _ (map (join d) (names es))); simpl; [reflexivity | exact IH].
Qed.

Lemma has_package_iff sub :
  has_package fs sub = true <->
  contains fs sub "__init__.py" /\
  (contains fs sub "init_gui.py" \/ contains fs sub "InitGui.py").
Proof.
  unfold has_package.
  rewrite andb_true_iff, orb_true_iff, !exists_join_iff.
  reflexivity.
Qed.

Lemma candidate_iff d :
  candidate fs d = true <->
  is_directory fs d /\
  exists sub,
    is_directory fs (join d sub) /\
    contains fs (join d sub) "__init__.py" /\
    (contains fs (join d sub) "init_gui.py" \/
     contains fs (join d sub) "InitGui.py").
Proof.
  unfold candidate.
  destruct (lookup fs d) as [[data | es] |] eqn:Hd.
  - split; [discriminate |]. intros [[es H] _]. congruence.
  - rewrite existsb_exists. split.
    + intros (x & Hin & Hx).
      apply in_map_iff in Hin as (sub & <- & Hsub).
      apply andb_true_iff in Hx as [Hdir Hpkg].
      split; [now exists es |].
      exists sub. split; [now apply is_dir_iff | now apply has_package_iff].
    + intros (_ & sub & Hdir & Hpkg).
      exists (join d sub). split.
      * apply in_map.
        destruct Hdir as [es' Hsub]. rewrite lookup_join, Hd in Hsub.
        now apply assoc_names with (Dir es').
      * apply andb_true_iff.
        split; [now apply is_dir_iff | now apply has_package_iff].
  - split; [discriminate |]. intros [[es H] _]. congruence.
Qed.

End NewStyle.

Section Walk.

(** Every path of the walk lies below its starting point. *)
Lemma iterate_directories_below n :
  forall p d, In d (iterate_directories n p) -> exists q, d = p ++ q.
Proof.
  induction n as [data | es IH] using node_induction; intros p d; simpl.
  - tauto.
  - intros [<- | Hin].
    + exists []. now rewrite app_nil_r.
    + induction es as [| [k c] es IHes]; [contradiction |].
      inversion IH as [| ? ? Hc Hes]; subst.
      apply in_app_or in Hin as [Hin | Hin].
      * apply Hc in Hin as [q ->].
        exists (k :: q). unfold join. now rewrite <- app_assoc.
      * now apply IHes.
Qed.

(** Every directory that can be reached from the starting point is
    visited. *)
Lemma iterate_directories_complete q :
  forall n p es,
    lookup n q = Some (Dir es) -> In (p ++ q) (iterate_directories n p).
Proof.
  induction q as [| k q IH]; intros n p es; simpl.
  - intros [= ->]. rewrite app_nil_r. now left.
  - destruct n as [data | es0]; [discriminate |].
    destruct (assoc k es0) as [c |] eqn:Hk; [| discriminate].
    intros Hq. right.
    apply (IH c (join p k)) in Hq.
    unfold join in Hq. rewrite <- app_assoc in Hq. simpl in Hq.
    revert Hq. generalize (p ++ k :: q). intros d Hd.
    induction es0 as [| [k' c'] es0 IHes]; [discriminate |].
    simpl in Hk. apply in_or_app.
    destruct (String.eqb_spec k' k) as [-> | Hne].
    + left. injection Hk as ->. exact Hd.
    + right. now apply IHes.
Qed.

Lemma in_rglob fs p k d :
  In d (rglob fs p k) <->
  exists q, d = join (p ++ q) k /\ is_directory fs (p ++ q) /\
            exists_ fs d = true.
Proof.
  unfold rglob. split.
  - destruct (lookup fs p) as [n |] eqn:Hp; [| contradiction].
    intros Hin. apply filter_In in Hin as [Hin Hex].
    apply in_map_iff in Hin as (d0 & <- & Hin).
    apply iterate_directories_below in Hin as [q ->].
    exists q. split; [reflexivity |]. split; [| exact Hex].
    unfold exists_ in Hex. rewrite lookup_join in Hex.
    destruct (lookup fs (p ++ q)) as [[data | es] |] eqn:Hq; try discriminate.
    now exists es.
  - intros (q & -> & [es Hq] & Hex).
    rewrite lookup_app in Hq.
    destruct (lookup fs p) as [n |]; [| discriminate].
    apply filter_In. split; [| exact Hex].
    apply in_map_iff. exists (p ++ q). split; [reflexivity |].
    now apply iterate_directories_complete with es.
Qed.

End Walk.

(** The detector always returns, and returns the presence of the layout. *)
Lemma find_new_style_spec fs p :
  exists b, find_new_style fs p = Ok b /\ (b = true <-> new_layout fs p).
Proof.
  unfold find_new_style. rewrite scan_freecad_dirs_existsb.
  eexists. split; [reflexivity |].
  rewrite existsb_exists. unfold new_layout. split.
  - intros (d & Hin & Hc).
    apply in_rglob in Hin as (q & -> & _ & _).
    apply candidate_iff in Hc as (Hd & sub & Hsub & Hpkg).
    exists q, sub. cbv zeta. tauto.
  - intros (q & sub & Hd & Hsub & Hpkg). cbv zeta in *.
    exists (join (p ++ q) "freecad"). split.
    + apply in_rglob. exists q. split; [reflexivity |].
      destruct Hd as [es Hd]. split.
      * rewrite lookup_join in Hd.
        destruct (lookup fs (p ++ q)) as [[data | es0] |] eqn:Hq; try discriminate.
        now exists es0.
      * unfold exists_. now rewrite Hd.
    + apply candidate_iff. split; [exact Hd |]. exists sub. tauto.
Qed.



(** The scanned directory itself is not a candidate of the glob: a
    directory called [freecad] counts only below the scanned path. *)
Example find_new_style_at_namespace :
  find_new_style Samples.disk ["srv"; "addons"; "B"; "freecad"] = Ok false.
Proof. reflexivity. Qed.

(** ** Classification *)

Lemma find_new_style_total fs p : find_new_style fs p = Ok (new_style_of fs p).
Proof. apply scan_freecad_dirs_existsb. Qed.

Lemma classify_workbench_total fs p :
  classify_workbench fs p = Ok (classified fs p).
Proof.
  unfold classify_workbench. now rewrite find_new_style_total.
Qed.

Lemma style_of_cases o n :
  (style_of o n = "old" <-> o = true /\ n = false) /\
  (style_of o n = "new" <-> n = true /\ o = false) /\
  (style_of o n = "mixed" <-> o = true /\ n = true) /\
  (style_of o n = "unknown" <-> o = false /\ n = false) /\
  known_style (style_of o n).
Proof.
  unfold known_style.
  destruct o, n; cbn; repeat split; intros; try discriminate;
    try tauto; try (destruct H; discriminate).
Qed.

(** C1: the record that [classify_workbench] returns has style [old] iff
    only the legacy layout was found, [new] iff only the new layout was
    found, [mixed] iff both were, [unknown] iff neither was; the style is
    always one of these four. *)
Theorem classify_workbench_style (fs : node) (p : path) :
  exists r,
    classify_workbench fs p = Ok r /\
    r_old_style r = find_old_style fs p /\
    find_new_style fs p = Ok (r_new_style r) /\
    (r_style r = "old" <-> r_old_style r = true /\ r_new_style r = false) /\
    (r_style r = "new" <-> r_new_style r = true /\ r_old_style r = false) /\
    (r_style r = "mixed" <-> r_old_style r = true /\ r_new_style r = true) /\
    (r_style r = "unknown" <-> r_old_style r = false /\ r_new_style r = false) /\
    known_style (r_style r).
Proof.
  exists (classified fs p).
  split; [apply classify_workbench_total |].
  split; [reflexivity |].
  split; [apply find_new_style_total |].
  apply style_of_cases.
Qed.

(** ** Missing directories *)


(** ** Markers that are directories *)

(** C9: the marker tests only ask whether the name resolves.  Whatever
    nodes [m1] and [m2] sit at the marker names, regular files or
    directories, the detectors are satisfied in the same way. *)
Theorem markers_need_not_be_files (fs : node) (p : path) :
  (forall i g m1 m2,
      In i ["Init.py"; "init.py"] ->
      In g ["InitGui.py"; "initgui.py"] ->
      lookup fs (join p i) = Some m1 ->
      lookup fs (join p g) = Some m2 ->
      find_old_style fs p = true) /\
  (forall q sub g m1 m2,
      let child := join (join (p ++ q) "freecad") sub in
      In g ["init_gui.py"; "InitGui.py"] ->
      lookup fs (join child "__init__.py") = Some m1 ->
      lookup fs (join child g) = Some m2 ->
      find_new_style fs p = Ok true).
Proof.
  split.
  - intros i g m1 m2 Hi Hg H1 H2.
    apply exists_join_lookup in H1, H2.
    unfold find_old_style. apply andb_true_iff.
    simpl in Hi, Hg.
    split; apply orb_true_iff.
    + destruct Hi as [<- | [<- | []]]; auto.
    + destruct Hg as [<- | [<- | []]]; auto.
  - intros q sub g m1 m2 child Hg H1 H2.
    destruct (find_new_style_spec fs p) as (b & Hb & Hiff).
    rewrite Hb. f_equal. apply Hiff.
    apply exists_join_lookup in H1 as E1. apply exists_join_lookup in H2 as E2.
    apply exists_join_iff in E1, E2.
    assert (Hc : is_directory fs child).
    { destruct E1 as (es & Hes & _). now exists es. }
    assert (Hf : is_directory fs (join (p ++ q) "freecad")).
    { destruct Hc as [es Hes]. subst child. rewrite lookup_join in Hes.
      destruct (lookup fs (join (p ++ q) "freecad")) as [[d | es0] |] eqn:E;
        try discriminate.
      now exists es0. }
    exists q, sub. cbv zeta. fold child.
    repeat split; try assumption.
    simpl in Hg. destruct Hg as [<- | [<- | []]]; auto.
Qed.

(** Addon [E] of the sample tree: every marker is a directory. *)
Lemma markers_need_not_be_files_witness :
  find_old_style Samples.disk ["srv"; "addons"; "E"] = true /\
  find_new_style Samples.disk ["srv"; "addons"; "E"] = Ok true.
Proof.
  destruct (markers_need_not_be_files Samples.disk ["srv"; "addons"; "E"])
    as [Hold Hnew].
  split.
  - apply (Hold "init.py" "initgui.py" (Dir []) (Dir []));
      [simpl; tauto | simpl; tauto | reflexivity | reflexivity].
  - apply (Hnew ["src"; "vendor"] "pkg" "InitGui.py" (Dir []) (Dir []));
      [simpl; tauto | reflexivity | reflexivity].
Defined.

(** ** The scan *)

Section WellFormed.

Lemma wf_Dir es :
  wf (Dir es) <-> NoDup (names es) /\ Forall (fun kc => wf (snd kc)) es.
Proof.
  simpl. apply and_iff_compat_l.
  induction es as [| [k c] es IH]; split; intros H.
  - constructor.
  - exact I.
  - destruct H as [Hc Hes]. constructor; [exact Hc | now apply IH].
  - inversion H; subst. split; [assumption | now apply IH].
Qed.

Lemma nodupb_NoDup l : nodupb l = true -> NoDup l.
Proof.
  induction l as [| x l IH]; simpl; intros H; constructor.
  - apply andb_true_iff in H as [H _].
    intros Hin. apply negb_true_iff in H.
    assert (existsb (String.eqb x) l = true); [| congruence].
    apply existsb_exists. exists x. split; [exact Hin | apply String.eqb_refl].
  - apply IH. now apply andb_true_iff in H as [_ H].
Qed.

Lemma wfb_wf n : wfb n = true -> wf n.
Proof.
  induction n as [data | es IH] using node_induction; intros H.
  - exact I.
  - apply wf_Dir. simpl in H. apply andb_true_iff in H as [Hn Hall].
    split; [now apply nodupb_NoDup |].
    induction es as [| [k c] es IHes]; constructor;
      inversion IH; subst; apply andb_true_iff in Hall as [Hc Hall].
    + simpl. auto.
    + apply IHes; try assumption.
      simpl in Hn. now apply andb_true_iff in Hn as [_ Hn].
Qed.


End WellFormed.

Section Scan.

Variable fs : node.

Lemma scan_children_map children :
  scan_children fs children =
  Ok (map (classified fs) (filter (scanned fs) children)).
Proof.
  induction children as [| child rest IH]; simpl; [reflexivity |].
  fold (scanned fs child).
  destruct (scanned fs child); [| exact IH].
  now rewrite classify_workbench_total, IH.
Qed.

Lemma name_join p k : name (join p k) = k.
Proof. apply last_last. Qed.


End Scan.



(** ** Writing a file *)

Section Write.

Lemma bind_Ok {A B : Type} (m : result A) (k : A -> result B) (b : B) :
  bind m k = Ok b -> exists a, m = Ok a /\ k a = Ok b.
Proof.
  destruct m as [a | e]; simpl; [| discriminate].
  intros H. now exists a.
Qed.

Variable k : string.
Variable f : node -> result node.
Variable absent : result node.

(** The entry called [k] after [put]: what [f] made of the old one, or the
    new entry. *)
Lemma put_assoc es es' :
  put k f absent es = Ok es' ->
  exists c', assoc k es' = Some c' /\
             match assoc k es with
             | Some c => f c = Ok c'
             | None => absent = Ok c'
             end.
Proof.
  revert es'.
  induction es as [| [k0 c0] es IH]; intros es' H; simpl in H.
  - apply bind_Ok in H as (c & Hc & [= <-]).
    exists c. simpl. now rewrite String.eqb_refl.
  - simpl. destruct (String.eqb k0 k) eqn:Hk.
    + apply bind_Ok in H as (c' & Hc & [= <-]).
      exists c'. simpl. now rewrite Hk.
    + apply bind_Ok in H as (es'' & Hes & [= <-]).
      destruct (IH _ Hes) as (c' & Hc' & Hold).
      exists c'. simpl. now rewrite Hk.
Qed.

Lemma put_assoc_other es es' k2 :
  put k f absent es = Ok es' -> k2 <> k -> assoc k2 es' = assoc k2 es.
Proof.
  revert es'.
  induction es as [| [k0 c0] es IH]; intros es' H Hne; simpl in H.
  - apply bind_Ok in H as (c & Hc & [= <-]).
    simpl. apply not_eq_sym, String.eqb_neq in Hne. now rewrite Hne.
  - destruct (String.eqb_spec k0 k) as [-> | Hk].
    + apply bind_Ok in H as (c' & Hc & [= <-]).
      simpl. apply not_eq_sym, String.eqb_neq in Hne. now rewrite Hne.
    + apply bind_Ok in H as (es'' & Hes & [= <-]).
      simpl. rewrite (IH _ Hes Hne). reflexivity.
Qed.

Lemma put_names es es' :
  put k f absent es = Ok es' ->
  names es' = names es \/
  (assoc k es = None /\ names es' = names es ++ [k]).
Proof.
  revert es'.
  induction es as [| [k0 c0] es IH]; intros es' H; simpl in H.
  - apply bind_Ok in H as (c & Hc & [= <-]). now right.
  - simpl. destruct (String.eqb k0 k) eqn:Hk.
    + apply bind_Ok in H as (c' & Hc & [= <-]). now left.
    + apply bind_Ok in H as (es'' & Hes & [= <-]).
      destruct (IH _ Hes) as [Hn | [Ha Hn]]; simpl; rewrite Hn; auto.
Qed.

Lemma put_succeeds es c' :
  match assoc k es with
  | Some c => f c = Ok c'
  | None => absent = Ok c'
  end ->
  exists es', put k f absent es = Ok es'.
Proof.
  induction es as [| [k0 c0] es IH]; simpl.
  - intros ->. simpl. eauto.
  - destruct (String.eqb k0 k).
    + intros ->. simpl. eauto.
    + intros H. destruct (IH H) as [es' ->]. simpl. eauto.
Qed.

End Write.

Section WriteLookup.

Variable data : string.

(** The written path resolves to a regular file with the new contents. *)
Lemma write_lookup p : forall n n',
  write n p data = Ok n' -> lookup n' p = Some (File data).
Proof.
  induction p as [| k p IH]; intros n n' H; simpl in H.
  - destruct n; [| discriminate]. now injection H as <-.
  - destruct n as [old | es]; [discriminate |].
    apply bind_Ok in H as (es' & Hput & [= <-]).
    apply put_assoc in Hput as (c' & Hc' & Hold).
    simpl. rewrite Hc'.
    destruct (assoc k es) as [c |].
    + now apply IH with c.
    + destruct p; [| discriminate]. now injection Hold as <-.
Qed.

(** Writing a file neither makes nor removes a directory. *)
Lemma write_is_dir p : forall n n' q,
  write n p data = Ok n' -> is_dir n' q = is_dir n q.
Proof.
  unfold is_dir.
  induction p as [| k p IH]; intros n n' q H; simpl in H.
  - destruct n; [| discriminate]. injection H as <-.
    now destruct q.
  - destruct n as [old | es]; [discriminate |].
    apply bind_Ok in H as (es' & Hput & [= <-]).
    destruct q as [| k2 q]; [reflexivity |]. simpl.
    destruct (String.eqb_spec k2 k) as [-> | Hne].
    + apply put_assoc in Hput as (c' & Hc' & Hold).
      rewrite Hc'.
      destruct (assoc k es) as [c |].
      * now apply IH.
      * destruct p; [| discriminate]. injection Hold as <-.
        now destruct q.
    + now rewrite (put_assoc_other _ _ _ _ _ _ Hput Hne).
Qed.

(** No other path starts or stops to exist. *)
Lemma write_exists p : forall n n' q,
  write n p data = Ok n' -> q <> p -> exists_ n' q = exists_ n q.
Proof.
  unfold exists_.
  induction p as [| k p IH]; intros n n' q H Hq; simpl in H.
  - destruct n; [| discriminate]. injection H as <-.
    destruct q; [contradiction | reflexivity].
  - destruct n as [old | es]; [discriminate |].
    apply bind_Ok in H as (es' & Hput & [= <-]).
    destruct q as [| k2 q]; [reflexivity |]. simpl.
    destruct (String.eqb_spec k2 k) as [-> | Hne].
    + apply put_assoc in Hput as (c' & Hc' & Hold).
      rewrite Hc'.
      destruct (assoc k es) as [c |].
      * apply IH; [exact Hold | congruence].
      * destruct p; [| discriminate]. injection Hold as <-.
        destruct q; [contradiction | reflexivity].
    + now rewrite (put_assoc_other _ _ _ _ _ _ Hput Hne).
Qed.

(** Paths that leave the written path at some directory resolve as
    before. *)
Lemma write_lookup_other a : forall n n' k p k2 q,
  write n (a ++ k :: p) data = Ok n' ->
  k2 <> k ->
  lookup n' (a ++ k2 :: q) = lookup n (a ++ k2 :: q).
Proof.
  induction a as [| k0 a IH]; intros n n' k p k2 q H Hne; simpl in H.
  - destruct n as [old | es]; [discriminate |].
    apply bind_Ok in H as (es' & Hput & [= <-]).
    simpl. now rewrite (put_assoc_other _ _ _ _ _ _ Hput Hne).
  - destruct n as [old | es]; [discriminate |].
    apply bind_Ok in H as (es' & Hput & [= <-]).
    apply put_assoc in Hput as (c' & Hc' & Hold).
    simpl. rewrite Hc'.
    destruct (assoc k0 es) as [c |].
    + now apply IH with k p.
    + destruct a; discriminate.
Qed.

(** A directory at least two levels above the written file keeps its
    listing of names. *)
Lemma write_names a : forall n n' k1 k2 p es,
  write n (a ++ k1 :: k2 :: p) data = Ok n' ->
  lookup n a = Some (Dir es) ->
  exists es', lookup n' a = Some (Dir es') /\ names es' = names es.
Proof.
  induction a as [| k0 a IH]; intros n n' k1 k2 p es H Ha; simpl in H.
  - destruct n as [old | es0]; [discriminate |].
    apply bind_Ok in H as (es' & Hput & [= <-]).
    simpl in Ha. injection Ha as <-.
    exists es'. split; [reflexivity |].
    destruct (put_names _ _ _ _ _ Hput) as [Hn | [Hnone Hn]]; [exact Hn |].
    apply put_assoc in Hput as (c' & _ & Hold).
    rewrite Hnone in Hold. discriminate.
  - destruct n as [old | es0]; [discriminate |].
    apply bind_Ok in H as (es' & Hput & [= <-]).
    apply put_assoc in Hput as (c' & Hc' & Hold).
    simpl in Ha |- *. rewrite Hc'.
    destruct (assoc k0 es0) as [c |]; [| discriminate].
    now apply IH with c k1 k2 p.
Qed.

(** Overwriting an existing regular file succeeds, and so does creating a
    file in an existing directory. *)
Lemma write_succeeds p : forall n,
  (exists old, lookup n p = Some (File old)) \/
  (exists d k, p = join d k /\ is_directory n d /\ lookup n p = None) ->
  exists n', write n p data = Ok n'.
Proof.
  induction p as [| k p IH]; intros n H.
  - destruct H as [[old H] | (d & k & Hp & _)].
    + simpl in H. injection H as ->. simpl. eauto.
    + destruct d; discriminate.
  - destruct n as [old | es].
    + exfalso. destruct H as [[old' H] | (d & k' & Hp & [es Hd] & _)].
      * discriminate.
      * destruct d as [| k0 d]; [| discriminate]. discriminate.
    + simpl.
      assert (Hc : exists c',
        match assoc k es with
        | Some c => write c p data = Ok c'
        | None => match p with
                  | [] => Ok (File data)
                  | _ :: _ => Raise FileNotFoundError
                  end = Ok c'
        end).
      { destruct (assoc k es) as [c |] eqn:Hk.
        - apply IH.
          destruct H as [[old H] | (d & k' & Hp & [es0 Hd] & Hnone)].
          + left. exists old. simpl in H. now rewrite Hk in H.
          + destruct d as [| k0 d].
            * injection Hp as -> ->. simpl in Hnone. rewrite Hk in Hnone.
              discriminate.
            * injection Hp as <- ->. right. exists d, k'.
              split; [reflexivity |].
              simpl in Hd, Hnone. rewrite Hk in Hd, Hnone.
              split; [now exists es0 | exact Hnone].
        - destruct H as [[old H] | (d & k' & Hp & [es0 Hd] & Hnone)].
          + simpl in H. rewrite Hk in H. discriminate.
          + destruct d as [| k0 d].
            * injection Hp as -> ->. eauto.
            * injection Hp as <- ->. simpl in Hd. rewrite Hk in Hd.
              discriminate. }
      destruct Hc as [c' Hc].
      destruct (put_succeeds _ _ _ _ _ Hc) as [es' ->]. simpl. eauto.
Qed.

End WriteLookup.

(** ** The report *)

Lemma fold_left_snoc {A B : Type} (g : A -> B) (l : list A) : forall acc,
  fold_left (fun f x => f ++ [g x]) l acc = acc ++ map g l.
Proof.
  induction l as [| x l IH]; intros acc; simpl.
  - now rewrite app_nil_r.
  - rewrite IH, <- app_assoc. reflexivity.
Qed.

Lemma csv_writes_rows results :
  csv_writes results = writeheader :: map writerow results.
Proof. unfold csv_writes. now rewrite fold_left_snoc. Qed.

Lemma writerow_fields r :
  writerow r =
  ((Csv.field (r_name r) ++ "," ++ Csv.field (r_style r) ++ "," ++
    Csv.field (r_path r) ++ "," ++ str_value (VBool (r_old_style r)) ++ "," ++
    str_value (VBool (r_new_style r))) ++ Csv.lineterminator)%string.
Proof.
  unfold writerow, Csv.writerow, dict_to_list. cbn [map fieldnames get String.eqb Ascii.eqb Bool.eqb].
  cbn [String.concat].
  now destruct (r_old_style r), (r_new_style r).
Qed.

(** ** The summary *)

Lemma count_style_cons s r results :
  count_style s (r :: results) =
  (if String.eqb (r_style r) s then 1 else 0) + count_style s results.
Proof. reflexivity. Qed.

Lemma count_style_sum results :
  Forall (fun r => known_style (r_style r)) results ->
  count_style "old" results + count_style "new" results +
  count_style "mixed" results + count_style "unknown" results =
  List.length results.
Proof.
  induction 1 as [| r results Hr _ IH]; [reflexivity |].
  rewrite !count_style_cons. cbn [List.length]. rewrite <- IH.
  destruct Hr as [-> | [-> | [-> | ->]]]; cbn; lia.
Qed.

Lemma scan_addons_Ok fs root results :
  scan_addons fs root = Ok results ->
  exists es,
    lookup fs root = Some (Dir es) /\
    results = map (classified fs)
                  (filter (scanned fs) (map (join root) (names es))).
Proof.
  unfold scan_addons, iterdir.
  destruct (lookup fs root) as [[data | es] |]; try discriminate.
  cbn [bind]. rewrite scan_children_map. intros [= <-].
  now exists es.
Qed.

Lemma scan_addons_known fs root results :
  scan_addons fs root = Ok results ->
  Forall (fun r => known_style (r_style r)) results.
Proof.
  intros H. apply scan_addons_Ok in H as (es & _ & ->).
  apply Forall_forall. intros r Hr.
  apply in_map_iff in Hr as (c & <- & _).
  apply style_of_cases.
Qed.

(** ** Running the script again *)

Section AfterTheReport.

Variables (fs fs' : node) (d : path) (data : string).

Hypothesis Hwrite : write fs (join d report_name) data = Ok fs'.

Lemma join_differs (a b : path) (k1 k2 : string) :
  k1 <> k2 -> join a k1 <> join b k2.
Proof.
  unfold join. intros Hne Heq.
  apply app_inj_tail in Heq as [_ Heq]. contradiction.
Qed.

Lemma report_keeps_is_directory q :
  is_directory fs' q <-> is_directory fs q.
Proof.
  rewrite <- !is_dir_iff. now rewrite (write_is_dir _ _ _ _ q Hwrite).
Qed.

Lemma report_keeps_contains q k :
  k <> report_name -> (contains fs' q k <-> contains fs q k).
Proof.
  intros Hk. rewrite <- !exists_join_iff.
  rewrite (write_exists _ _ _ _ (join q k) Hwrite); [reflexivity |].
  now apply join_differs.
Qed.

Lemma report_keeps_find_old_style c :
  find_old_style fs' c = find_old_style fs c.
Proof.
  unfold find_old_style.
  rewrite !(write_exists _ _ _ _ _ Hwrite);
    [reflexivity | apply join_differs; discriminate ..].
Qed.

Lemma report_keeps_new_layout c : new_layout fs' c <-> new_layout fs c.
Proof.
  unfold new_layout.
  split; intros (q & sub & H); exists q, sub; cbv zeta in *;
    rewrite !report_keeps_is_directory, !report_keeps_contains in *
      by discriminate; exact H.
Qed.

Lemma report_keeps_new_style_of c :
  new_style_of fs' c = new_style_of fs c.
Proof.
  destruct (find_new_style_spec fs c) as (b & Hb & Hiff).
  destruct (find_new_style_spec fs' c) as (b' & Hb' & Hiff').
  rewrite find_new_style_total in Hb, Hb'.
  injection Hb as ->. injection Hb' as ->.
  rewrite report_keeps_new_layout in Hiff'.
  destruct b, b'; try reflexivity.
  - apply Hiff', Hiff. reflexivity.
  - symmetry. apply Hiff, Hiff'. reflexivity.
Qed.

Lemma report_keeps_classified c : classified fs' c = classified fs c.
Proof.
  unfold classified.
  now rewrite report_keeps_find_old_style, report_keeps_new_style_of.
Qed.

Lemma report_keeps_scanned c : scanned fs' c = scanned fs c.
Proof.
  unfold scanned. now rewrite (write_is_dir _ _ _ _ c Hwrite).
Qed.

End AfterTheReport.

(** The scan of the directory above the one that receives the report gives
    the same records after the report is written. *)
Lemma scan_addons_after_report fs fs' root k data results :
  write fs (join (join root k) report_name) data = Ok fs' ->
  scan_addons fs root = Ok results ->
  scan_addons fs' root = Ok results.
Proof.
  intros Hw Hscan.
  apply scan_addons_Ok in Hscan as (es & Hroot & ->).
  assert (Hw' : write fs (root ++ k :: report_name :: []) data = Ok fs').
  { unfold join in Hw. now rewrite <- app_assoc in Hw. }
  destruct (write_names _ _ _ _ _ _ _ _ Hw' Hroot) as (es' & Hroot' & Hnames).
  unfold scan_addons, iterdir. rewrite Hroot'. cbn [bind].
  rewrite scan_children_map, Hnames.
  f_equal.
  generalize (map (join root) (names es)). intros cs.
  induction cs as [| c cs IH]; [reflexivity |].
  cbn [filter]. rewrite (report_keeps_scanned _ _ _ _ Hw).
  destruct (scanned fs c); cbn [map]; rewrite IH; [| reflexivity].
  now rewrite (report_keeps_classified _ _ _ _ Hw).
Qed.

Lemma parents_1_Ok p root :
  parents_1 p = Ok root ->
  exists k s, p = root ++ [k; s] /\ parent p = join root k.
Proof.
  unfold parents_1, parent.
  destruct p as [| a [| b rest]]; try discriminate.
  intros [= <-].
  set (p := a :: b :: rest).
  assert (Hp : p <> []) by discriminate.
  assert (Hp' : removelast p <> []).
  { subst p. cbn. destruct rest; discriminate. }
  exists (last (removelast p) ""), (last p "").
  split.
  - rewrite (app_removelast_last "" Hp) at 1.
    rewrite (app_removelast_last "" Hp') at 1.
    now rewrite <- app_assoc.
  - apply (app_removelast_last "" Hp').
Qed.

Lemma parents_1_app root k s : parents_1 (root ++ [k; s]) = Ok root.
Proof.
  assert (E : removelast (removelast (root ++ [k; s])) = root).
  { rewrite removelast_app by discriminate. cbn [removelast].
    rewrite removelast_app by discriminate. apply app_nil_r. }
  unfold parents_1.
  destruct (root ++ [k; s]) as [| x [| y l]] eqn:El.
  - apply app_eq_nil in El as [_ El]. discriminate.
  - apply (f_equal (@List.length string)) in El.
    rewrite length_app in El. cbn in El. lia.
  - now rewrite E.
Qed.

(** What a successful run did. *)
Lemma main_Ok fs script_path fs' out :
  main fs script_path = Ok (fs', out) ->
  exists root k s results,
    script_path = root ++ [k; s] /\
    scan_addons fs root = Ok results /\
    write fs (join (join root k) report_name)
          (String.concat "" (csv_writes results)) = Ok fs' /\
    out = [("Scanning: " ++ str root)%string;
           ("CSV written to: " ++ str (join (join root k) report_name))%string]
          ++ print_summary results.
Proof.
  unfold main. intros H.
  apply bind_Ok in H as (root & Hroot & H).
  apply bind_Ok in H as (results & Hscan & H).
  apply bind_Ok in H as (fs1 & Hw & Heq).
  apply parents_1_Ok in Hroot as (k & s & Hp & Hparent).
  rewrite Hparent in Hw, Heq. injection Heq as <- <-.
  exists root, k, s, results.
  split; [exact Hp |]. split; [exact Hscan |]. split; [exact Hw | reflexivity].
Qed.

(** A run succeeds as soon as the root is a directory and the report can
    be opened for writing in the directory of the script. *)
Lemma main_succeeds fs root k s es :
  lookup fs root = Some (Dir es) ->
  is_directory fs (join root k) ->
  is_dir fs (join (join root k) report_name) = false ->
  exists fs' out, main fs (root ++ [k; s]) = Ok (fs', out).
Proof.
  intros Hroot Hdir Hfree.
  assert (Hparent : parent (root ++ [k; s]) = join root k).
  { unfold parent, join. change [k; s] with ([k] ++ [s]).
    now rewrite app_assoc, removelast_last. }
  unfold main. rewrite parents_1_app. cbn [bind].
  unfold scan_addons, iterdir. rewrite Hroot. cbn [bind].
  rewrite scan_children_map. cbn [bind].
  rewrite Hparent. fold report_name.
  set (results := map (classified fs) _).
  destruct (write_succeeds (String.concat "" (csv_writes results))
              (join (join root k) report_name) fs) as [fs' Hw].
  { unfold is_dir in Hfree.
    destruct (lookup fs (join (join root k) report_name))
      as [[old | es'] |] eqn:Hl; try discriminate.
    - left. now exists old.
    - right. now exists (join root k), report_name. }
  unfold write_csv. rewrite Hw. cbn [bind]. eauto.
Qed.

(** C6: when a run of the script succeeds, a second run on the tree that
    the first one left succeeds as well, prints the same lines, and leaves
    a report with the very same contents. *)
Theorem main_twice_same_report (fs : node) (script_path : path)
    (fs1 : node) (out1 : list string) :
  main fs script_path = Ok (fs1, out1) ->
  exists fs2 out2 report,
    main fs1 script_path = Ok (fs2, out2) /\
    lookup fs1 (join (parent script_path) report_name) = Some (File report) /\
    lookup fs2 (join (parent script_path) report_name) = Some (File report) /\
    out2 = out1.
Proof.
  intros Hrun.
  destruct (main_Ok _ _ _ _ Hrun) as (root & k & s & results & Hp & Hscan & Hw & Hout).
  pose proof (scan_addons_after_report _ _ _ _ _ _ Hw Hscan) as Hscan1.
  pose proof (write_lookup _ _ _ _ Hw) as Hfile.
  destruct (write_succeeds (String.concat "" (csv_writes results))
              (join (join root k) report_name) fs1) as [fs2 Hw2].
  { left. eexists. exact Hfile. }
  assert (Hroot : parents_1 script_path = Ok root).
  { subst script_path. apply parents_1_app. }
  assert (Hparent : parent script_path = join root k).
  { subst script_path. unfold parent, join.
    change [k; s] with ([k] ++ [s]). rewrite app_assoc.
    now rewrite removelast_last. }
  exists fs2, out1, (String.concat "" (csv_writes results)).
  rewrite Hparent.
  split.
  - unfold main. rewrite Hroot. cbn [bind]. rewrite Hscan1. cbn [bind].
    rewrite Hparent. unfold write_csv. fold report_name. rewrite Hw2. cbn [bind].
    now rewrite Hout.
  - split; [exact Hfile |].
    split; [now apply write_lookup with fs1 | reflexivity].
Qed.

Lemma main_twice_same_report_witness :
  exists fs1 out1 fs2 out2 report,
    main Samples.disk Samples.script_path = Ok (fs1, out1) /\
    main fs1 Samples.script_path = Ok (fs2, out2) /\
    lookup fs1 ["srv"; "addons"; "utils"; report_name] = Some (File report) /\
    lookup fs2 ["srv"; "addons"; "utils"; report_name] = Some (File report) /\
    out2 = out1.
Proof.
  destruct (main Samples.disk Samples.script_path) as [[fs1 out1] | e] eqn:Hrun;
    [| vm_compute in Hrun; discriminate Hrun].
  destruct (main_twice_same_report _ _ _ _ Hrun)
    as (fs2 & out2 & report & Hrun2 & Hl1 & Hl2 & Hout).
  exists fs1, out1, fs2, out2, report.
  repeat split; assumption.
Defined.

(** ** The report and the scanned addons *)

(** C10: with the script in the [utils] directory of the root, a
    successful run writes the report inside that [utils] directory, which
    the scan leaves out; every path of the root that does not go through
    [utils] resolves after the run as it did before, the root lists the
    same names, and a scan after the run returns the same records. *)
Theorem report_outside_scanned_addons (fs : node) (root : path) (s : string)
    (fs' : node) (out : list string) :
  main fs (root ++ ["utils"; s]) = Ok (fs', out) ->
  (exists report,
      lookup fs' (root ++ ["utils"; "workbench_report.csv"]) =
      Some (File report)) /\
  scanned fs (join root "utils") = false /\
  scanned fs' (join root "utils") = false /\
  (forall k q, k <> "utils" ->
      lookup fs' (root ++ k :: q) = lookup fs (root ++ k :: q)) /\
  (exists es es',
      lookup fs root = Some (Dir es) /\
      lookup fs' root = Some (Dir es') /\
      names es' = names es) /\
  (exists results,
      scan_addons fs root = Ok results /\
      scan_addons fs' root = Ok results /\
      forall r, In r results -> r_name r <> "utils").
Proof.
  intros Hrun.
  destruct (main_Ok _ _ _ _ Hrun)
    as (root0 & k & s0 & results & Hp & Hscan & Hw & _).
  assert (root0 = root /\ k = "utils") as [-> ->].
  { change [k; s0] with ([k] ++ [s0]) in Hp.
    change ["utils"; s] with (["utils"] ++ [s]) in Hp.
    rewrite !app_assoc in Hp.
    apply app_inj_tail in Hp as [Hp _].
    apply app_inj_tail in Hp as [Hp Hk]. now split. }
  assert (Hw' : write fs (root ++ "utils" :: report_name :: [])
                  (String.concat "" (csv_writes results)) = Ok fs').
  { unfold join in Hw. now rewrite <- app_assoc in Hw. }
  split.
  { eexists. apply write_lookup in Hw'. exact Hw'. }
  assert (Hutils : forall t, scanned t (join root "utils") = false).
  { intros t. unfold scanned. rewrite name_join. cbn. apply andb_false_r. }
  split; [apply Hutils |]. split; [apply Hutils |].
  split.
  { intros k q Hk. now apply write_lookup_other with (k := "utils") (p := [report_name])
      (data := String.concat "" (csv_writes results)). }
  pose proof Hscan as Hscan0.
  apply scan_addons_Ok in Hscan as (es & Hroot & Hres).
  split.
  { destruct (write_names _ _ _ _ _ _ _ _ Hw' Hroot) as (es' & Hroot' & Hnames).
    now exists es, es'. }
  exists results.
  split; [exact Hscan0 |].
  split; [now apply scan_addons_after_report with fs "utils"
                 (String.concat "" (csv_writes results)) |].
  intros r Hr. rewrite Hres in Hr.
  apply in_map_iff in Hr as (c & <- & Hin).
  apply filter_In in Hin as [_ Hsel].
  unfold scanned in Hsel. apply andb_true_iff in Hsel as [_ Hne].
  apply negb_true_iff, String.eqb_neq in Hne. exact Hne.
Qed.

Lemma report_outside_scanned_addons_witness :
  exists fs' out results,
    main Samples.disk (Samples.root ++ ["utils"; Samples.script]) = Ok (fs', out) /\
    lookup fs' (Samples.root ++ ["E"]) = lookup Samples.disk (Samples.root ++ ["E"]) /\
    scan_addons Samples.disk Samples.root = Ok results /\
    scan_addons fs' Samples.root = Ok results.
Proof.
  destruct (main Samples.disk (Samples.root ++ ["utils"; Samples.script]))
    as [[fs' out] | e] eqn:Hrun;
    [| vm_compute in Hrun; discriminate Hrun].
  destruct (report_outside_scanned_addons _ _ _ _ _ Hrun)
    as (_ & _ & _ & Hframe & _ & results & Hs & Hs' & _).
  exists fs', out, results.
  split; [reflexivity |].
  split; [apply Hframe; discriminate |].
  split; assumption.
Defined.

(** * Further properties of the code *)

(** ** The scan, in listing order *)




(** ** Classification and the tree *)







(** ** More on writing a file *)

Section PutMore.

Variable k : string.

Lemma put_raises f absent es c e :
  assoc k es = Some c -> f c = Raise e -> put k f absent es = Raise e.
Proof.
  induction es as [| [k0 c0] es IH]; simpl; [discriminate |].
  destruct (String.eqb k0 k).
  - intros [= ->] ->. reflexivity.
  - intros Hk Hf. now rewrite IH.
Qed.

(** A second [put] only sees what the first one left. *)
Lemma put_put f1 a1 f2 a2 es es1 :
  put k f1 a1 es = Ok es1 ->
  (forall c c1, f1 c = Ok c1 -> f2 c1 = f2 c) ->
  (forall c1, a1 = Ok c1 -> f2 c1 = a2) ->
  put k f2 a2 es1 = put k f2 a2 es.
Proof.
  intros H Hf Ha. revert es1 H.
  induction es as [| [k0 c0] es IH]; intros es1 H; simpl in H.
  - apply bind_Ok in H as (c & Hc & [= <-]).
    simpl. rewrite String.eqb_refl, (Ha _ Hc). reflexivity.
  - simpl. destruct (String.eqb k0 k) eqn:Hk.
    + apply bind_Ok in H as (c1 & Hc & [= <-]).
      simpl. now rewrite Hk, (Hf _ _ Hc).
    + apply bind_Ok in H as (es' & Hes & [= <-]).
      simpl. now rewrite Hk, (IH _ Hes).
Qed.

Lemma put_Forall (P : node -> Prop) f absent es es' :
  put k f absent es = Ok es' ->
  Forall (fun kc => P (snd kc)) es ->
  (forall c c', f c = Ok c' -> P c -> P c') ->
  (forall c', absent = Ok c' -> P c') ->
  Forall (fun kc => P (snd kc)) es'.
Proof.
  intros H Hall Hf Ha. revert es' H.
  induction Hall as [| [k0 c0] es Hc0 Hall IH]; intros es' H; simpl in H.
  - apply bind_Ok in H as (c & Hc & [= <-]).
    constructor; [now apply Ha | constructor].
  - destruct (String.eqb k0 k).
    + apply bind_Ok in H as (c1 & Hc & [= <-]).
      constructor; [now apply Hf with c0 | exact Hall].
    + apply bind_Ok in H as (es'' & Hes & [= <-]).
      constructor; [exact Hc0 | now apply IH].
Qed.

Lemma assoc_None_names es : assoc k es = None -> ~ In k (names es).
Proof.
  intros Hnone Hin. apply names_assoc in Hin as [c Hc]. congruence.
Qed.

Lemma put_NoDup f absent es es' :
  put k f absent es = Ok es' -> NoDup (names es) -> NoDup (names es').
Proof.
  intros H Hnd.
  destruct (put_names _ _ _ _ _ H) as [-> | [Hnone ->]]; [exact Hnd |].
  apply NoDup_app; [exact Hnd | repeat constructor; simpl; tauto |].
  intros x Hx [<- | []]. now apply assoc_None_names in Hnone.
Qed.

End PutMore.

Section WriteMore.

Variable data : string.

(** Every path that is neither the written path nor one of its ancestors
    resolves as before. *)
Lemma write_frame p : forall n n' q,
  write n p data = Ok n' -> ~ is_prefix q p -> lookup n' q = lookup n q.
Proof.
  induction p as [| k p IH]; intros n n' q H Hq; simpl in H.
  - destruct n; [| discriminate]. injection H as <-.
    destruct q; [| reflexivity].
    exfalso. apply Hq. now exists [].
  - destruct n as [old | es]; [discriminate |].
    apply bind_Ok in H as (es' & Hput & [= <-]).
    destruct q as [| k2 q]; [exfalso; apply Hq; now exists (k :: p) |].
    simpl. destruct (String.eqb_spec k2 k) as [-> | Hne].
    + assert (Hq' : ~ is_prefix q p).
      { intros [r ->]. apply Hq. now exists r. }
      apply put_assoc in Hput as (c' & Hc' & Hold).
      rewrite Hc'.
      destruct (assoc k es) as [c |].
      * now apply IH.
      * destruct p; [| discriminate]. injection Hold as <-.
        destruct q; [| reflexivity].
        exfalso. apply Hq'. now exists [].
    + now rewrite (put_assoc_other _ _ _ _ _ _ Hput Hne).
Qed.

(** The listing of a directory after a write: the same names, or one more
    name when the file was created in that very directory. *)
Lemma write_listing p : forall n n' q es,
  write n p data = Ok n' ->
  lookup n q = Some (Dir es) ->
  exists es',
    lookup n' q = Some (Dir es') /\
    (names es' = names es \/
     exists k, p = join q k /\ lookup n p = None /\ names es' = names es ++ [k]).
Proof.
  induction p as [| k p IH]; intros n n' q es H Hq; simpl in H.
  - destruct n; [| discriminate]. destruct q; discriminate.
  - destruct n as [old | es0]; [discriminate |].
    apply bind_Ok in H as (es' & Hput & [= <-]).
    destruct q as [| k2 q].
    + simpl in Hq. injection Hq as <-.
      exists es'. split; [reflexivity |].
      destruct (put_names _ _ _ _ _ Hput) as [Hn | [Hnone Hn]]; [now left |].
      right. exists k.
      apply put_assoc in Hput as (c' & _ & Hold). rewrite Hnone in Hold.
      destruct p; [| discriminate].
      repeat split; [| exact Hn]. simpl. now rewrite Hnone.
    + simpl in Hq |- *.
      destruct (String.eqb_spec k2 k) as [-> | Hne].
      * apply put_assoc in Hput as (c' & Hc' & Hold). rewrite Hc'.
        destruct (assoc k es0) as [c |] eqn:Hk; [| discriminate].
        destruct (IH _ _ _ _ Hold Hq) as (es1 & Hl & Hn).
        exists es1. split; [exact Hl |].
        destruct Hn as [Hn | (k' & -> & Hnone & Hn)]; [now left |].
        right. exists k'. repeat split; [| exact Hn].
        exact Hnone.
      * rewrite (put_assoc_other _ _ _ _ _ _ Hput Hne).
        exists es. split; [exact Hq | now left].
Qed.

(** A write keeps the names of every directory distinct. *)
Lemma write_wf p : forall n n', write n p data = Ok n' -> wf n -> wf n'.
Proof.
  induction p as [| k p IH]; intros n n' H Hwf; simpl in H.
  - destruct n; [| discriminate]. now injection H as <-.
  - destruct n as [old | es]; [discriminate |].
    apply bind_Ok in H as (es' & Hput & [= <-]).
    apply wf_Dir in Hwf as [Hnd Hall]. apply wf_Dir. split.
    + now apply put_NoDup in Hput.
    + apply (put_Forall k wf _ _ _ _ Hput Hall).
      * intros c c' Hc Hwfc. now apply IH with c.
      * destruct p; [| discriminate]. now intros c' [= <-].
Qed.

(** A directory in the way makes [open] raise [IsADirectoryError]. *)
Lemma write_is_a_directory p : forall n,
  is_dir n p = true -> write n p data = Raise IsADirectoryError.
Proof.
  unfold is_dir.
  induction p as [| k p IH]; intros n H; simpl in H.
  - destruct n; [discriminate | reflexivity].
  - destruct n as [old | es]; [discriminate |].
    destruct (assoc k es) as [c |] eqn:Hk; [| discriminate].
    simpl. now rewrite (put_raises k _ _ es c IsADirectoryError Hk (IH c H)).
Qed.

(** When a write succeeds the target was a regular file, or a free name in
    an existing directory. *)
Lemma write_Ok p : forall n n',
  write n p data = Ok n' ->
  (exists old, lookup n p = Some (File old)) \/
  (exists d k, p = join d k /\ is_directory n d /\ lookup n p = None).
Proof.
  induction p as [| k p IH]; intros n n' H; simpl in H.
  - destruct n as [old | es]; [| discriminate]. left. now exists old.
  - destruct n as [old | es]; [discriminate |].
    apply bind_Ok in H as (es' & Hput & [= <-]).
    apply put_assoc in Hput as (c' & _ & Hold).
    simpl. destruct (assoc k es) as [c |] eqn:Hk.
    + destruct (IH _ _ Hold) as [Hfile | (d & k' & -> & [es0 Hd] & Hnone)].
      * now left.
      * right. exists (k :: d), k'. split; [reflexivity |].
        split; [| exact Hnone]. exists es0. simpl. now rewrite Hk.
    + destruct p; [| discriminate].
      right. exists [], k. repeat split. now exists es.
Qed.

End WriteMore.

(** What comes first does not matter to a later write at the same path. *)
Lemma write_write p d1 d2 : forall n n1,
  write n p d1 = Ok n1 -> write n1 p d2 = write n p d2.
Proof.
  induction p as [| k p IH]; intros n n1 H; simpl in H.
  - destruct n; [| discriminate]. now injection H as <-.
  - destruct n as [old | es]; [discriminate |].
    apply bind_Ok in H as (es1 & Hput & [= <-]).
    simpl. f_equal.
    apply (put_put k _ _ _ _ _ _ Hput).
    + intros c c1 Hc. now apply IH.
    + destruct p; [| discriminate]. now intros c1 [= <-].
Qed.

(** ** What the report writer touches *)

(** X6: [write_csv] changes the target and nothing else: every path that
    is neither the target nor one of its ancestors resolves to the same
    node as before, no directory appears or disappears, and no path other
    than the target starts or stops to exist. *)
Theorem write_csv_touches_only_target (fs : node)
    (results : list ClassificationRecord) (csv_path : path) (fs' : node) :
  write_csv fs results csv_path = Ok fs' ->
  (forall q, ~ is_prefix q csv_path -> lookup fs' q = lookup fs q) /\
  (forall q, is_dir fs' q = is_dir fs q) /\
  (forall q, q <> csv_path -> exists_ fs' q = exists_ fs q).
Proof.
  unfold write_csv. intros H. repeat split; intros q.
  - now apply write_frame with (1 := H).
  - now apply write_is_dir with (1 := H).
  - now apply write_exists with (1 := H).
Qed.

Lemma write_csv_touches_only_target_witness :
  exists fs',
    write_csv Samples.disk [] ["srv"; "addons"; "utils"; "out.csv"] = Ok fs' /\
    lookup fs' ["srv"; "addons"; "utils"; Samples.script] =
      Some (File "#!/usr/bin/env python3") /\
    is_dir fs' ["srv"; "addons"; "utils"; "out.csv"] = false.
Proof.
  destruct (write_csv Samples.disk [] ["srv"; "addons"; "utils"; "out.csv"])
    as [fs' | e] eqn:Hw; [| vm_compute in Hw; discriminate Hw].
  destruct (write_csv_touches_only_target _ _ _ _ Hw) as (Hframe & Hdir & _).
  exists fs'. split; [reflexivity |]. split.
  - rewrite Hframe; [reflexivity |].
    intros [r Hr]. vm_compute in Hr. discriminate Hr.
  - rewrite Hdir. reflexivity.
Defined.

(** X7: [write_csv] keeps the tree well formed: when no directory lists a
    name twice before the write, none does after it. *)
Theorem write_csv_keeps_wf (fs : node) (results : list ClassificationRecord)
    (csv_path : path) (fs' : node) :
  write_csv fs results csv_path = Ok fs' -> wf fs -> wf fs'.
Proof. unfold write_csv. apply write_wf. Qed.

Lemma write_csv_keeps_wf_witness :
  exists fs',
    write_csv Samples.disk [] ["srv"; "addons"; "utils"; "out.csv"] = Ok fs' /\
    wf fs'.
Proof.
  destruct (write_csv Samples.disk [] ["srv"; "addons"; "utils"; "out.csv"])
    as [fs' | e] eqn:Hw; [| vm_compute in Hw; discriminate Hw].
  exists fs'. split; [reflexivity |].
  apply (write_csv_keeps_wf _ _ _ _ Hw). apply wfb_wf. reflexivity.
Defined.

(** X8: only the last report counts: after a first report was written, a
    second [write_csv] at the same path gives what it would have given
    without the first, error or tree. *)
Theorem write_csv_last_wins (fs : node)
    (results1 results2 : list ClassificationRecord) (csv_path : path)
    (fs1 : node) :
  write_csv fs results1 csv_path = Ok fs1 ->
  write_csv fs1 results2 csv_path = write_csv fs results2 csv_path.
Proof. unfold write_csv. apply write_write. Qed.

Lemma write_csv_last_wins_witness :
  exists fs1,
    write_csv Samples.disk [mkRecord "A" "old" "/A" true false]
              ["srv"; "report.csv"] = Ok fs1 /\
    write_csv fs1 [] ["srv"; "report.csv"] =
    write_csv Samples.disk [] ["srv"; "report.csv"].
Proof.
  destruct (write_csv Samples.disk [mkRecord "A" "old" "/A" true false]
              ["srv"; "report.csv"]) as [fs1 | e] eqn:Hw;
    [| vm_compute in Hw; discriminate Hw].
  exists fs1. split; [reflexivity |].
  apply (write_csv_last_wins _ _ _ _ _ Hw).
Defined.

(** ** The entry point *)

(** X11: a second run changes nothing: after a successful run, running
    [main] again succeeds, prints the same lines and returns the very same
    tree. *)
Theorem main_idempotent (fs : node) (script_path : path) (fs1 : node)
    (out1 : list string) :
  main fs script_path = Ok (fs1, out1) ->
  main fs1 script_path = Ok (fs1, out1).
Proof.
  intros Hrun.
  destruct (main_Ok _ _ _ _ Hrun) as (root & k & s & results & -> & Hscan & Hw & ->).
  pose proof (scan_addons_after_report _ _ _ _ _ _ Hw Hscan) as Hscan1.
  assert (Hparent : parent (root ++ [k; s]) = join root k).
  { unfold parent, join. change [k; s] with ([k] ++ [s]).
    now rewrite app_assoc, removelast_last. }
  unfold main. rewrite parents_1_app. cbn [bind]. rewrite Hscan1. cbn [bind].
  rewrite Hparent. unfold write_csv. fold report_name.
  rewrite (write_write _ _ _ _ _ Hw), Hw. reflexivity.
Qed.

Lemma main_idempotent_witness :
  exists fs1 out1,
    main Samples.disk Samples.script_path = Ok (fs1, out1) /\
    main fs1 Samples.script_path = Ok (fs1, out1).
Proof.
  destruct (main Samples.disk Samples.script_path) as [[fs1 out1] | e] eqn:Hrun;
    [| vm_compute in Hrun; discriminate Hrun].
  exists fs1, out1. split; [reflexivity |].
  apply (main_idempotent _ _ _ _ Hrun).
Defined.

(** ** What the classification can see *)

Section SameAnswers.

Variables fs fs' : node.

Hypothesis Hdir : forall q, is_dir fs' q = is_dir fs q.

Hypothesis Hmarkers :
  forall q k, In k marker_names -> exists_ fs' (join q k) = exists_ fs (join q k).

Lemma same_find_old_style c : find_old_style fs' c = find_old_style fs c.
Proof.
  unfold find_old_style.
  rewrite !Hmarkers by (cbn; tauto). reflexivity.
Qed.

Lemma same_has_package c : has_package fs' c = has_package fs c.
Proof.
  unfold has_package. cbv zeta.
  rewrite !Hmarkers by (cbn; tauto). reflexivity.
Qed.

Lemma same_new_layout_to c : new_layout fs c -> new_layout fs' c.
Proof.
  intros (q & sub & Hd & Hc & Hpkg). exists q, sub. cbv zeta in *.
  rewrite <- !is_dir_iff in *. rewrite !Hdir.
  split; [exact Hd |]. split; [exact Hc |].
  apply has_package_iff. rewrite same_has_package. now apply has_package_iff.
Qed.

Lemma same_new_layout_from c : new_layout fs' c -> new_layout fs c.
Proof.
  intros (q & sub & Hd & Hc & Hpkg). exists q, sub. cbv zeta in *.
  rewrite <- !is_dir_iff in *. rewrite !Hdir in Hd, Hc.
  split; [exact Hd |]. split; [exact Hc |].
  apply has_package_iff. rewrite <- same_has_package. now apply has_package_iff.
Qed.

Lemma same_new_style_of c : new_style_of fs' c = new_style_of fs c.
Proof.
  destruct (find_new_style_spec fs c) as (b & Hb & Hiff).
  destruct (find_new_style_spec fs' c) as (b' & Hb' & Hiff').
  rewrite find_new_style_total in Hb, Hb'.
  injection Hb as ->. injection Hb' as ->.
  destruct b, b'; try reflexivity.
  - apply Hiff'. apply same_new_layout_to. now apply Hiff.
  - symmetry. apply Hiff. apply same_new_layout_from. now apply Hiff'.
Qed.

Lemma same_classified c : classified fs' c = classified fs c.
Proof.
  unfold classified. now rewrite same_find_old_style, same_new_style_of.
Qed.

Lemma same_classify_workbench c :
  classify_workbench fs' c = classify_workbench fs c.
Proof. now rewrite !classify_workbench_total, same_classified. Qed.

Lemma same_scan_children cs : scan_children fs' cs = scan_children fs cs.
Proof.
  rewrite !scan_children_map. f_equal.
  induction cs as [| c cs IH]; [reflexivity |].
  cbn [filter].
  replace (scanned fs' c) with (scanned fs c)
    by (unfold scanned; now rewrite Hdir).
  destruct (scanned fs c); cbn [map];
    rewrite IH; [now rewrite same_classified | reflexivity].
Qed.

End SameAnswers.

Section Shape.

Lemma shape_Dir es :
  shape (Dir es) = Dir (map (fun kc => (fst kc, shape (snd kc))) es).
Proof.
  simpl. f_equal.
  induction es as [| [k c] es IH]; [reflexivity |].
  simpl. now rewrite IH.
Qed.

Lemma assoc_shape k es :
  assoc k (map (fun kc => (fst kc, shape (snd kc))) es) =
  option_map shape (assoc k es).
Proof.
  induction es as [| [k0 c0] es IH]; [reflexivity |].
  simpl. now destruct (String.eqb k0 k).
Qed.

Lemma lookup_shape p : forall n,
  lookup (shape n) p = option_map shape (lookup n p).
Proof.
  induction p as [| k p IH]; intros n; [reflexivity |].
  destruct n as [data | es]; [reflexivity |].
  rewrite shape_Dir. cbn [lookup]. rewrite assoc_shape.
  destruct (assoc k es) as [c |]; [apply IH | reflexivity].
Qed.

Lemma is_dir_shape n q : is_dir (shape n) q = is_dir n q.
Proof.
  unfold is_dir. rewrite lookup_shape.
  now destruct (lookup n q) as [[data | es] |].
Qed.

Lemma exists_shape n q : exists_ (shape n) q = exists_ n q.
Proof.
  unfold exists_. rewrite lookup_shape. now destruct (lookup n q).
Qed.

Lemma iterdir_shape n q : iterdir (shape n) q = iterdir n q.
Proof.
  unfold iterdir. rewrite lookup_shape.
  destruct (lookup n q) as [[data | es] |]; try reflexivity.
  cbn [option_map]. rewrite shape_Dir. unfold names.
  do 2 f_equal. rewrite map_map. now apply map_ext.
Qed.

Lemma scan_addons_shape n root : scan_addons (shape n) root = scan_addons n root.
Proof.
  unfold scan_addons. rewrite iterdir_shape.
  destruct (iterdir n root) as [cs | e]; [| reflexivity].
  cbn [bind]. apply same_scan_children.
  - apply is_dir_shape.
  - intros q k _. apply exists_shape.
Qed.

End Shape.

(** X12: the scan never reads a file: two trees that differ only in the
    contents of their regular files give the same result for every root,
    records or error, and the same record for every path. *)
Theorem scan_ignores_file_contents (fs1 fs2 : node) :
  shape fs1 = shape fs2 ->
  (forall root, scan_addons fs1 root = scan_addons fs2 root) /\
  (forall p, classify_workbench fs1 p = classify_workbench fs2 p).
Proof.
  intros H. split.
  - intros root. now rewrite <- (scan_addons_shape fs1), <- (scan_addons_shape fs2), H.
  - intros p.
    transitivity (classify_workbench (shape fs1) p).
    + symmetry. apply same_classify_workbench.
      * apply is_dir_shape.
      * intros q k _. apply exists_shape.
    + rewrite H. apply same_classify_workbench.
      * apply is_dir_shape.
      * intros q k _. apply exists_shape.
Qed.

Lemma scan_ignores_file_contents_witness :
  scan_addons (Dir [("a", Dir [("Init.py", File "import FreeCAD");
                                ("InitGui.py", File "import FreeCADGui")])]) [] =
  scan_addons (Dir [("a", Dir [("Init.py", File "");
                                ("InitGui.py", File "not python at all")])]) [].
Proof.
  apply (scan_ignores_file_contents
           (Dir [("a", Dir [("Init.py", File "import FreeCAD");
                            ("InitGui.py", File "import FreeCADGui")])])
           (Dir [("a", Dir [("Init.py", File "");
                            ("InitGui.py", File "not python at all")])])).
  reflexivity.
Defined.

(** X13: a report may be written anywhere: as long as the name of the
    target is not one of the six marker names, [write_csv] changes the
    record of no path, and every scan that succeeded before returns the
    same records after. *)
Theorem write_csv_keeps_scans (fs : node) (rows : list ClassificationRecord)
    (csv_path : path) (fs' : node) :
  write_csv fs rows csv_path = Ok fs' ->
  ~ In (name csv_path) marker_names ->
  (forall p, classify_workbench fs' p = classify_workbench fs p) /\
  (forall root results,
      scan_addons fs root = Ok results -> scan_addons fs' root = Ok results).
Proof.
  unfold write_csv. intros Hw Hname.
  assert (Hdir : forall q, is_dir fs' q = is_dir fs q).
  { intros q. now apply write_is_dir with (1 := Hw). }
  assert (Hmarkers : forall q k, In k marker_names ->
            exists_ fs' (join q k) = exists_ fs (join q k)).
  { intros q k Hk. apply write_exists with (1 := Hw).
    intros <-. rewrite name_join in Hname. contradiction. }
  split; [intros p; now apply same_classify_workbench |].
  intros root results Hscan.
  unfold scan_addons, iterdir in Hscan |- *.
  destruct (lookup fs root) as [[data | es] |] eqn:Hroot; try discriminate.
  cbn [bind] in Hscan.
  destruct (write_listing _ _ _ _ _ _ Hw Hroot) as (es' & -> & Hnames).
  cbn [bind]. rewrite (same_scan_children fs fs' Hdir Hmarkers).
  destruct Hnames as [-> | (k & Hk & _ & ->)]; [exact Hscan |].
  rewrite scan_children_map in Hscan |- *.
  rewrite map_app, filter_app. cbn [map filter].
  assert (Hfile : scanned fs (join root k) = false).
  { unfold scanned. rewrite <- Hdir, <- Hk. unfold is_dir.
    now rewrite (write_lookup _ _ _ _ Hw). }
  rewrite Hfile, app_nil_r. exact Hscan.
Qed.

(** The report written beside the addons instead of under [utils]. *)
Lemma write_csv_keeps_scans_witness :
  exists fs' results,
    write_csv Samples.disk [] ["srv"; "addons"; "report.csv"] = Ok fs' /\
    scan_addons Samples.disk Samples.root = Ok results /\
    scan_addons fs' Samples.root = Ok results.
Proof.
  destruct (write_csv Samples.disk [] ["srv"; "addons"; "report.csv"])
    as [fs' | e] eqn:Hw; [| vm_compute in Hw; discriminate Hw].
  destruct (scan_addons Samples.disk Samples.root) as [results | e] eqn:Hs;
    [| vm_compute in Hs; discriminate Hs].
  exists fs', results. split; [reflexivity |]. split; [reflexivity |].
  destruct (write_csv_keeps_scans _ _ _ _ Hw) as [_ Hscan].
  - vm_compute. intuition discriminate.
  - now apply Hscan.
Defined.

(** ** The report loses nothing *)

Section Fields.

Lemma append_assoc (a b c : string) : ((a ++ b) ++ c = a ++ (b ++ c))%string.
Proof. induction a as [| x a IH]; simpl; [reflexivity | now rewrite IH]. Qed.

Lemma append_nil_r (a : string) : (a ++ "")%string = a.
Proof. induction a as [| x a IH]; simpl; [reflexivity | now rewrite IH]. Qed.

Lemma append_inv_head (a b c : string) : (a ++ b = a ++ c)%string -> b = c.
Proof.
  induction a as [| x a IH]; simpl; [tauto |].
  intros [= H]. now apply IH.
Qed.

Lemma special_quotechar c : Ascii.eqb c Csv.quotechar = true -> Csv.special c = true.
Proof.
  intros H. unfold Csv.special. rewrite H. now rewrite orb_true_r.
Qed.

Lemma take_plain_field s t r :
  Csv.needs_quotes s = false -> Csv.special t = true ->
  take_plain (s ++ String t r) = (s, String t r).
Proof.
  intros Hs Ht. induction s as [| c s IH]; simpl.
  - now rewrite Ht.
  - simpl in Hs. apply orb_false_iff in Hs as [Hc Hs].
    now rewrite Hc, IH.
Qed.

Lemma unquote_doublequote s t r :
  Ascii.eqb t Csv.quotechar = false ->
  unquote (Csv.doublequote s ++ String Csv.quotechar (String t r)) =
  Some (s, String t r).
Proof.
  intros Ht. induction s as [| c s IH].
  - cbn [Csv.doublequote append unquote].
    rewrite Ascii.eqb_refl. now rewrite Ht.
  - cbn [Csv.doublequote].
    destruct (Ascii.eqb c Csv.quotechar) eqn:Hc.
    + apply Ascii.eqb_eq in Hc. subst c.
      cbn [append unquote]. rewrite Ascii.eqb_refl. now rewrite IH.
    + cbn [append unquote]. rewrite Hc. now rewrite IH.
Qed.

(** A field followed by a delimiter or a line end is read back whole. *)
Lemma take_field_field s t r :
  Csv.special t = true -> Ascii.eqb t Csv.quotechar = false ->
  take_field (Csv.field s ++ String t r) = Some (s, String t r).
Proof.
  intros Ht Hq. unfold Csv.field.
  destruct (Csv.needs_quotes s) eqn:Hs.
  - cbn [append take_field]. rewrite Ascii.eqb_refl.
    rewrite append_assoc. cbn [append].
    now apply unquote_doublequote.
  - destruct s as [| c s].
    + cbn [append take_field]. rewrite Hq. cbn [take_plain]. now rewrite Ht.
    + assert (Hc : Ascii.eqb c Csv.quotechar = false).
      { simpl in Hs. apply orb_false_iff in Hs as [Hc _].
        destruct (Ascii.eqb c Csv.quotechar) eqn:E; [| reflexivity].
        apply special_quotechar in E. congruence. }
      cbn [append take_field]. rewrite Hc.
      change (String c (s ++ String t r)) with (String c s ++ String t r)%string.
      now rewrite take_plain_field.
Qed.

Lemma field_inj s1 s2 t r1 r2 :
  Csv.special t = true -> Ascii.eqb t Csv.quotechar = false ->
  (Csv.field s1 ++ String t r1 = Csv.field s2 ++ String t r2)%string ->
  s1 = s2 /\ r1 = r2.
Proof.
  intros Ht Hq H.
  pose proof (take_field_field s1 t r1 Ht Hq) as H1.
  rewrite H, take_field_field in H1 by assumption.
  injection H1 as -> ->. now split.
Qed.

(** What follows a row can be told from the row. *)
Lemma writerow_inj r1 r2 rest1 rest2 :
  (writerow r1 ++ rest1 = writerow r2 ++ rest2)%string ->
  r1 = r2 /\ rest1 = rest2.
Proof.
  rewrite !writerow_fields. unfold Csv.lineterminator.
  rewrite !append_assoc. cbn [append].
  intros H.
  apply field_inj in H as [Hn H]; [| reflexivity | reflexivity].
  apply field_inj in H as [Hs H]; [| reflexivity | reflexivity].
  apply field_inj in H as [Hp H]; [| reflexivity | reflexivity].
  destruct r1 as [n1 s1 p1 o1 w1], r2 as [n2 s2 p2 o2 w2].
  cbn [r_name r_style r_path r_old_style r_new_style] in *. subst.
  destruct o1, o2, w1, w2; cbn in H; try discriminate;
    injection H as ->; now split.
Qed.

Lemma concat_cons (x : string) (xs : list string) :
  String.concat "" (x :: xs) = (x ++ String.concat "" xs)%string.
Proof.
  destruct xs as [| y ys]; cbn [String.concat]; [now rewrite append_nil_r |].
  reflexivity.
Qed.

Lemma rows_inj rs1 : forall rs2,
  String.concat "" (map writerow rs1) = String.concat "" (map writerow rs2) ->
  rs1 = rs2.
Proof.
  induction rs1 as [| r1 rs1 IH]; intros [| r2 rs2]; cbn [map].
  - reflexivity.
  - rewrite concat_cons, writerow_fields. cbn [String.concat].
    destruct (Csv.field (r_name r2)); discriminate.
  - rewrite concat_cons, writerow_fields. cbn [String.concat].
    destruct (Csv.field (r_name r1)); discriminate.
  - rewrite !concat_cons. intros H.
    apply writerow_inj in H as [-> H]. f_equal. now apply IH.
Qed.

End Fields.



(** ** The summary of any list of records *)

Lemma style_contribution s :
  let c := (if String.eqb s "old" then 1 else 0) +
           (if String.eqb s "new" then 1 else 0) +
           (if String.eqb s "mixed" then 1 else 0) +
           (if String.eqb s "unknown" then 1 else 0) in
  (known_style s /\ c = 1) \/ (~ known_style s /\ c = 0).
Proof.
  cbv zeta. unfold known_style.
  destruct (String.eqb_spec s "old") as [-> | H1]; [left; cbn; auto |].
  destruct (String.eqb_spec s "new") as [-> | H2]; [left; cbn; auto |].
  destruct (String.eqb_spec s "mixed") as [-> | H3]; [left; cbn; auto |].
  destruct (String.eqb_spec s "unknown") as [-> | H4]; [left; cbn; auto |].
  right. split; [tauto | reflexivity].
Qed.

(** X15: for any list of records, also one that no scan produced, the four
    counts of [print_summary] add up to at most the total, and to the
    total exactly when every record carries one of the four styles. *)
Theorem summary_counts_any (results : list ClassificationRecord) :
  count_style "old" results + count_style "new" results +
  count_style "mixed" results + count_style "unknown" results
    <= List.length results /\
  (count_style "old" results + count_style "new" results +
   count_style "mixed" results + count_style "unknown" results
     = List.length results <->
   Forall (fun r => known_style (r_style r)) results).
Proof.
  induction results as [| r results [IHle IHeq]].
  - cbn. split; [lia | split; [constructor | reflexivity]].
  - rewrite !count_style_cons. cbn [List.length].
    destruct (style_contribution (r_style r)) as [[Hk Hc] | [Hk Hc]];
      cbv zeta in Hc.
    + split; [lia |]. split.
      * intros H. constructor; [exact Hk | apply IHeq; lia].
      * intros H. inversion H; subst. apply IHeq in H3. lia.
    + split; [lia |]. split.
      * intros H. lia.
      * intros H. inversion H; subst. contradiction.
Qed.

(** ** What a run leaves behind *)


(** * The calls and their errors *)

(** ** Resolution within the limits *)

Section Lengths.









End Lengths.

Section Resolution.

Variable fs : node.











End Resolution.

(** ** The walk within the limits *)

Section WalkWithinLimits.

Variable fs : node.








End WalkWithinLimits.




(** ** The detectors and the errors of the calls *)




(** ** Text that can be written *)

Section Encoding.

Lemma run_app (a b : string) : forall st,
  Utf8.run st (a ++ b) = Utf8.run (Utf8.run st a) b.
Proof. induction a as [| c a IH]; intros st; simpl; [reflexivity | apply IH]. Qed.

Lemma valid_run s : Utf8.valid s = true <-> Utf8.run Utf8.Start s = Utf8.Start.
Proof.
  unfold Utf8.valid.
  destruct (Utf8.run Utf8.Start s); split; congruence.
Qed.

Lemma valid_app a b :
  Utf8.valid a = true -> Utf8.valid b = true -> Utf8.valid (a ++ b) = true.
Proof.
  rewrite !valid_run, run_app. now intros ->.
Qed.

(** A quote is a character of its own: doubling it changes nothing for
    the automaton. *)
Lemma step_quote_twice st :
  Utf8.step (Utf8.step st Csv.quotechar) Csv.quotechar =
  Utf8.step st Csv.quotechar.
Proof. destruct st; reflexivity. Qed.

Lemma run_doublequote s : forall st,
  Utf8.run st (Csv.doublequote s) = Utf8.run st s.
Proof.
  induction s as [| c s IH]; intros st; [reflexivity |].
  cbn [Csv.doublequote].
  destruct (Ascii.eqb c Csv.quotechar) eqn:Hc.
  - apply Ascii.eqb_eq in Hc. subst c.
    cbn [Utf8.run]. now rewrite step_quote_twice, IH.
  - cbn [Utf8.run]. apply IH.
Qed.

Lemma valid_field s : Utf8.valid s = true -> Utf8.valid (Csv.field s) = true.
Proof.
  intros H. unfold Csv.field.
  destruct (Csv.needs_quotes s); [| exact H].
  apply valid_run in H. apply valid_run.
  cbn [Utf8.run].
  change (Utf8.step Utf8.Start Csv.quotechar) with Utf8.Start.
  now rewrite run_app, run_doublequote, H.
Qed.

Lemma valid_writerow r :
  Utf8.valid (r_name r) = true -> Utf8.valid (r_style r) = true ->
  Utf8.valid (r_path r) = true -> Utf8.valid (writerow r) = true.
Proof.
  intros Hn Hs Hp. rewrite writerow_fields.
  apply valid_field in Hn, Hs, Hp.
  repeat (apply valid_app; try assumption);
    try reflexivity; now destruct (r_old_style r), (r_new_style r).
Qed.

Lemma accepted_all ws :
  Forall (fun w => Utf8.valid w = true) ws -> Os.accepted ws = (ws, None).
Proof.
  induction 1 as [| w ws Hw _ IH]; [reflexivity |].
  cbn [Os.accepted]. now rewrite Hw, IH.
Qed.

Lemma accepted_None ws ws' :
  Os.accepted ws = (ws', None) ->
  ws' = ws /\ Forall (fun w => Utf8.valid w = true) ws.
Proof.
  revert ws'. induction ws as [| w ws IH]; intros ws'; cbn [Os.accepted].
  - intros [= <-]. now split.
  - destruct (Utf8.valid w) eqn:Hw; [| discriminate].
    destruct (Os.accepted ws) as [ws0 failure].
    intros [= <- ->]. destruct (IH _ eq_refl) as [-> Hall].
    split; [reflexivity | now constructor].
Qed.

(** The first write that is refused, and what was accepted before it. *)
Lemma accepted_refused before w after :
  Forall (fun w => Utf8.valid w = true) before ->
  Utf8.valid w = false ->
  Os.accepted (before ++ w :: after) = (before, Some UnicodeEncodeError).
Proof.
  induction 1 as [| x before Hx _ IH]; intros Hw; cbn [app Os.accepted].
  - now rewrite Hw.
  - now rewrite Hx, IH.
Qed.

End Encoding.

(** ** Opening the report *)

Section Create.

Lemma put_ext k f g absent es :
  (forall c, f c = g c) -> put k f absent es = put k g absent es.
Proof.
  intros H. induction es as [| [k0 c0] es IH]; [reflexivity |].
  simpl. now rewrite H, IH.
Qed.

(** With names that a directory can hold, [open] is the plain write. *)
Lemma create_write data p : forall n,
  Forall okname p -> Os.create n p data = write n p data.
Proof.
  induction p as [| k p IH]; intros n Hp; [now destruct n |].
  destruct n as [old | es]; [reflexivity |].
  inversion Hp as [| ? ? Hk Hp']; subst.
  cbn [Os.create write]. apply Nat.ltb_ge in Hk. rewrite Hk.
  cbv zeta. f_equal. apply put_ext. intros c. now apply IH.
Qed.

(** A path that was opened had no name too long on it. *)
Lemma create_Ok_names data p : forall n n',
  Os.create n p data = Ok n' -> Forall okname p.
Proof.
  induction p as [| k p IH]; intros n n' H; [constructor |].
  destruct n as [old | es]; [discriminate |].
  cbn [Os.create] in H.
  destruct (Os.NAME_MAX <? String.length k)%nat eqn:Hk; [discriminate |].
  apply Nat.ltb_ge in Hk. constructor; [exact Hk |].
  cbv zeta in H.
  apply bind_Ok in H as (es' & Hput & _).
  apply put_assoc in Hput as (c' & _ & Hold).
  destruct (assoc k es) as [c |]; [now apply IH with c c' |].
  destruct p; [constructor | discriminate].
Qed.

Lemma os_write_Ok fs p data fs' :
  Os.write fs p data = Ok fs' ->
  reachable p /\ write fs p data = Ok fs'.
Proof.
  unfold Os.write.
  destruct (Os.PATH_MAX <=? String.length (str p))%nat eqn:Hl; [discriminate |].
  apply Nat.leb_gt in Hl. intros H.
  pose proof (create_Ok_names _ _ _ _ H) as Hn.
  split; [now split |]. now rewrite <- create_write.
Qed.

Lemma os_write_ideal fs p data :
  reachable p -> Os.write fs p data = write fs p data.
Proof.
  intros [Hn Hl]. unfold Os.write. apply Nat.leb_gt in Hl. rewrite Hl.
  now apply create_write.
Qed.

End Create.

(** ** Rows read back *)

Section ReadBack.

Lemma read_fields_more n x r :
  read_fields (S (S n)) (Csv.field x ++ String Csv.delimiter r) =
  match read_fields (S n) r with
  | Some (xs, rest) => Some (x :: xs, rest)
  | None => None
  end.
Proof.
  cbn [read_fields].
  rewrite take_field_field by reflexivity.
  cbn [expect]. now rewrite Ascii.eqb_refl.
Qed.

Lemma read_fields_last x r :
  read_fields 1 (Csv.field x ++ String Csv.cr (String Csv.lf r)) = Some ([x], r).
Proof.
  cbn [read_fields].
  rewrite take_field_field by reflexivity.
  cbn [expect]. now rewrite !Ascii.eqb_refl.
Qed.

Lemma field_bool (b : bool) :
  str_value (VBool b) = Csv.field (if b then "True" else "False").
Proof. now destruct b. Qed.

(** A row, read back, gives the five values of the record, whatever they
    contain. *)
Lemma read_row_writerow r rest :
  read_row (writerow r ++ rest) =
  Some ([r_name r; r_style r; r_path r;
         if r_old_style r then "True" else "False";
         if r_new_style r then "True" else "False"], rest).
Proof.
  unfold read_row. rewrite writerow_fields, !field_bool.
  unfold Csv.lineterminator. rewrite !append_assoc. cbn [append].
  change (String ","%char) with (String Csv.delimiter).
  now rewrite !read_fields_more, read_fields_last.
Qed.

End ReadBack.

(** ** The report writer and the text of the names *)

(** C7, as stated, fails: an addon whose name is not valid UTF-8 is
    scanned like any other, and [write_csv] on the records of that scan
    raises [UnicodeEncodeError]; the file that it leaves holds the header
    and no row. *)
Lemma write_csv_report_counterexample :
  exists results fs',
    Os.scan_addons 10
      (Dir [(Samples.latin1_name, Dir []); ("utils", Dir [])]) [] = Ok results /\
    List.length results = 1 /\
    Os.write_csv (Dir [(Samples.latin1_name, Dir []); ("utils", Dir [])])
      results ["utils"; "workbench_report.csv"] =
      (fs', Some UnicodeEncodeError) /\
    lookup fs' ["utils"; "workbench_report.csv"] = Some (File writeheader).
Proof.
  eexists. eexists.
  split; [vm_compute; reflexivity |].
  split; [reflexivity |].
  split; vm_compute; reflexivity.
Qed.

(** C7, amended: for every sequence of records whose names, styles and
    paths are valid UTF-8, and a target that can be opened for writing (a
    regular file, or a new name in an existing directory, within the
    limits on names and paths), [write_csv] raises nothing and leaves at
    the target a file made of the header row
    [name,style,path,old_style,new_style] followed by one row per record,
    in the order of the records; each row holds the five fields in the
    order of the header, quoted where they must be, with the booleans
    written [True] or [False], so that reading the row gives the five
    values back; nothing of what the file held before is kept. *)
Theorem write_csv_report (fs : node) (results : list ClassificationRecord)
    (csv_path : path) :
  Forall (fun r => Utf8.valid (r_name r) = true /\
                   Utf8.valid (r_style r) = true /\
                   Utf8.valid (r_path r) = true) results ->
  Forall (fun k => String.length k <= Os.NAME_MAX) csv_path ->
  String.length (str csv_path) < Os.PATH_MAX ->
  (exists old, lookup fs csv_path = Some (File old)) \/
  (exists d k, csv_path = join d k /\ is_directory fs d /\
               lookup fs csv_path = None) ->
  exists fs',
    Os.write_csv fs results csv_path = (fs', None) /\
    lookup fs' csv_path =
      Some (File (String.concat "" (writeheader :: map writerow results))) /\
    csv_writes results = writeheader :: map writerow results /\
    writeheader =
      ("name,style,path,old_style,new_style" ++ Csv.lineterminator)%string /\
    (forall r,
        writerow r =
        ((Csv.field (r_name r) ++ "," ++ Csv.field (r_style r) ++ "," ++
          Csv.field (r_path r) ++ "," ++
          (if r_old_style r then "True" else "False") ++ "," ++
          (if r_new_style r then "True" else "False")) ++
         Csv.lineterminator)%string) /\
    (forall r rest,
        read_row (writerow r ++ rest) =
        Some ([r_name r; r_style r; r_path r;
               if r_old_style r then "True" else "False";
               if r_new_style r then "True" else "False"], rest)).
Proof.
  intros Hvalid Hnames Hlen Hopen.
  assert (Hall : Forall (fun w => Utf8.valid w = true) (csv_writes results)).
  { rewrite csv_writes_rows. constructor; [reflexivity |].
    apply Forall_forall. intros w Hw.
    apply in_map_iff in Hw as (r & <- & Hr).
    rewrite Forall_forall in Hvalid. destruct (Hvalid _ Hr) as (Hn & Hs & Hp).
    now apply valid_writerow. }
  destruct (write_succeeds (String.concat "" (csv_writes results)) csv_path fs Hopen)
    as [fs' Hw].
  exists fs'. unfold Os.write_csv.
  rewrite (accepted_all _ Hall), os_write_ideal by (now split). rewrite Hw.
  split; [reflexivity |].
  split; [rewrite <- csv_writes_rows; now apply write_lookup with fs |].
  split; [apply csv_writes_rows |].
  split; [reflexivity |].
  split; [| apply read_row_writerow].
  intros r. rewrite writerow_fields.
  now destruct (r_old_style r), (r_new_style r).
Qed.

(** A report that already exists is replaced; the name holds a comma and
    a quote. *)
Lemma write_csv_report_witness :
  exists fs',
    Os.write_csv (Dir [("utils", Dir [("workbench_report.csv", File "stale")])])
      [mkRecord (String "a" (String "," (String Csv.quotechar "b")))
                "old" "/A" true false]
      ["utils"; "workbench_report.csv"] = (fs', None) /\
    lookup fs' ["utils"; "workbench_report.csv"] =
      Some (File ("name,style,path,old_style,new_style" ++ Csv.lineterminator ++
                  String Csv.quotechar
                    (String "a" (String "," (String Csv.quotechar
                      (String Csv.quotechar (String "b"
                        (String Csv.quotechar ""))))))
                  ++ ",old,/A,True,False" ++ Csv.lineterminator)%string).
Proof.
  destruct (write_csv_report
              (Dir [("utils", Dir [("workbench_report.csv", File "stale")])])
              [mkRecord (String "a" (String "," (String Csv.quotechar "b")))
                        "old" "/A" true false]
              ["utils"; "workbench_report.csv"])
    as (fs' & Hw & Hl & _).
  - repeat constructor.
  - repeat constructor; apply Nat.leb_le; reflexivity.
  - apply Nat.ltb_lt. reflexivity.
  - left. exists "stale". reflexivity.
  - exists fs'. split; [exact Hw | exact Hl].
Defined.

(** ** The summary and the rows of the report *)

Lemma os_classify_known limit fs p r :
  Os.classify_workbench limit fs p = Ok r -> known_style (r_style r).
Proof.
  unfold Os.classify_workbench. intros H.
  apply bind_Ok in H as (o & _ & H).
  apply bind_Ok in H as (n & _ & [= <-]).
  apply (style_of_cases o n).
Qed.

Lemma os_scan_children_known limit fs children : forall results,
  Os.scan_children limit fs children = Ok results ->
  Forall (fun r => known_style (r_style r)) results.
Proof.
  induction children as [| child rest IH]; intros results H;
    cbn [Os.scan_children] in H.
  - injection H as <-. constructor.
  - apply bind_Ok in H as (d & _ & H).
    destruct (d && negb (String.eqb (name child) "utils")); [| now apply IH].
    apply bind_Ok in H as (r & Hr & H).
    apply bind_Ok in H as (rs & Hrs & [= <-]).
    constructor; [now apply os_classify_known in Hr | now apply IH].
Qed.

Lemma os_scan_addons_known limit fs root results :
  Os.scan_addons limit fs root = Ok results ->
  Forall (fun r => known_style (r_style r)) results.
Proof.
  unfold Os.scan_addons. intros H.
  apply bind_Ok in H as (children & _ & H).
  now apply os_scan_children_known in H.
Qed.

(** What [write_csv] did when it raised nothing. *)
Lemma os_write_csv_None fs results csv_path fs' :
  Os.write_csv fs results csv_path = (fs', None) ->
  reachable csv_path /\
  write_csv fs results csv_path = Ok fs' /\
  Forall (fun w => Utf8.valid w = true) (csv_writes results).
Proof.
  unfold Os.write_csv, write_csv.
  destruct (Os.accepted (csv_writes results)) as [ws failure] eqn:Ha.
  destruct (Os.write fs csv_path (String.concat "" ws)) as [fs1 | e] eqn:Hw;
    [| discriminate].
  intros [= -> ->].
  apply accepted_None in Ha as [-> Hall].
  apply os_write_Ok in Hw as [Hreach Hw]. auto.
Qed.

(** C5: for the records of a scan that [write_csv] wrote without an
    error, the four counts that [print_summary] prints add up to the total
    that it prints, and the file that [write_csv] left is the header
    followed by exactly that many rows, one per record: the file cannot be
    read as the rows of any other number of records. *)
Theorem summary_counts_add_up (limit : nat) (fs : node) (root : path)
    (results : list ClassificationRecord) (csv_path : path) (fs' : node) :
  Os.scan_addons limit fs root = Ok results ->
  Os.write_csv fs results csv_path = (fs', None) ->
  exists total old new mixed unknown rows,
    print_summary results =
      [ String Csv.lf "Summary"; rule;
        ("Total addons scanned : " ++ dec total)%string;
        ("Old-style            : " ++ dec old)%string;
        ("New-style            : " ++ dec new)%string;
        ("Mixed                : " ++ dec mixed)%string;
        ("Unknown              : " ++ dec unknown)%string;
        rule ] /\
    old + new + mixed + unknown = total /\
    lookup fs' csv_path = Some (File (String.concat "" (writeheader :: rows))) /\
    rows = map writerow results /\
    List.length rows = total /\
    (forall results',
        String.concat "" (writeheader :: map writerow results') =
        String.concat "" (writeheader :: rows) ->
        List.length results' = total).
Proof.
  intros Hscan Hwrite.
  exists (List.length results), (count_style "old" results),
    (count_style "new" results), (count_style "mixed" results),
    (count_style "unknown" results), (map writerow results).
  split; [reflexivity |].
  split; [apply count_style_sum; now apply os_scan_addons_known in Hscan |].
  apply os_write_csv_None in Hwrite as (_ & Hw & _).
  split.
  { rewrite <- csv_writes_rows. unfold write_csv in Hw.
    now apply write_lookup with fs. }
  split; [reflexivity |].
  split; [apply length_map |].
  intros results' H. rewrite !concat_cons in H.
  apply append_inv_head, rows_inj in H. now subst.
Qed.

Lemma summary_counts_add_up_witness :
  exists results fs' old new mixed unknown rows,
    Os.scan_addons 50 Samples.disk Samples.root = Ok results /\
    Os.write_csv Samples.disk results
      ["srv"; "addons"; "utils"; "workbench_report.csv"] = (fs', None) /\
    print_summary results =
      [ String Csv.lf "Summary"; rule;
        "Total addons scanned : 5";
        ("Old-style            : " ++ dec old)%string;
        ("New-style            : " ++ dec new)%string;
        ("Mixed                : " ++ dec mixed)%string;
        ("Unknown              : " ++ dec unknown)%string;
        rule ] /\
    old + new + mixed + unknown = 5 /\
    lookup fs' ["srv"; "addons"; "utils"; "workbench_report.csv"] =
      Some (File (String.concat "" (writeheader :: rows))) /\
    List.length rows = 5.
Proof.
  destruct (Os.scan_addons 50 Samples.disk Samples.root) as [results | e] eqn:Hs;
    [| vm_compute in Hs; discriminate Hs].
  assert (Hlen : List.length results = 5).
  { vm_compute in Hs. injection Hs as <-. reflexivity. }
  destruct (Os.write_csv Samples.disk results
              ["srv"; "addons"; "utils"; "workbench_report.csv"])
    as [fs' failure] eqn:Hw.
  assert (failure = None) as ->.
  { vm_compute in Hs. injection Hs as <-. vm_compute in Hw. now injection Hw. }
  destruct (summary_counts_add_up _ _ _ _ _ _ Hs Hw)
    as (total & old & new & mixed & unknown & rows & Hp & Hsum & Hfile & Hrows
        & Hn & _).
  assert (total = 5) as ->.
  { rewrite <- Hn, Hrows, length_map. exact Hlen. }
  exists results, fs', old, new, mixed, unknown, rows. auto 10.
Defined.

(** ** How the scan and the report writer fail *)

Section Failures.

Lemma walk_app r : forall n m q,
  Forall okname r -> lookup n r = Some m -> Os.walk n (r ++ q) = Os.walk m q.
Proof.
  induction r as [| k r IH]; intros n m q Hr; simpl.
  - now intros [= ->].
  - destruct n as [data | es]; [discriminate |].
    inversion Hr as [| ? ? Hk Hr']; subst.
    apply Nat.ltb_ge in Hk. rewrite Hk.
    destruct (assoc k es) as [c |]; [now apply IH | discriminate].
Qed.

Lemma walk_Ok p : forall n m,
  Os.walk n p = Ok m -> Forall okname p /\ lookup n p = Some m.
Proof.
  induction p as [| k p IH]; intros n m; simpl.
  - intros [= ->]. now split.
  - destruct n as [data | es]; [discriminate |].
    destruct (Os.NAME_MAX <? String.length k)%nat eqn:Hk; [discriminate |].
    apply Nat.ltb_ge in Hk.
    destruct (assoc k es) as [c |]; [| discriminate].
    intros H. destruct (IH _ _ H) as [Hp Hl]. split; [now constructor | exact Hl].
Qed.

Lemma create_long_name data k d : forall n es,
  Forall okname d -> lookup n d = Some (Dir es) ->
  Os.NAME_MAX < String.length k ->
  Os.create n (d ++ [k]) data = Raise OSError_ENAMETOOLONG.
Proof.
  induction d as [| k0 d IH]; intros n es Hd Hl Hk.
  - simpl in Hl. injection Hl as ->. cbn [app Os.create].
    apply Nat.ltb_lt in Hk. now rewrite Hk.
  - destruct n as [old | es0]; [discriminate |].
    inversion Hd as [| ? ? Hk0 Hd']; subst.
    simpl in Hl. destruct (assoc k0 es0) as [c |] eqn:Ha; [| discriminate].
    cbn [app Os.create]. apply Nat.ltb_ge in Hk0. rewrite Hk0. cbv zeta.
    now rewrite (put_raises k0 _ _ es0 c OSError_ENAMETOOLONG Ha
                   (IH c es Hd' Hl Hk)).
Qed.

End Failures.

(** X2: how [scan_addons] fails on its root, as [root.iterdir()] raises:
    [ENAMETOOLONG] for a text of [PATH_MAX] bytes or more and for a
    component longer than [NAME_MAX] in an existing directory,
    [FileNotFoundError] for a name that an existing directory does not
    list, [NotADirectoryError] for a root that is a regular file or goes
    through one; and when it returns, the root was a directory within the
    limits. *)
Theorem scan_addons_raises (limit : nat) (fs : node) (root : path) :
  (Os.PATH_MAX <= String.length (str root) ->
   Os.scan_addons limit fs root = Raise OSError_ENAMETOOLONG) /\
  (String.length (str root) < Os.PATH_MAX ->
   forall r k q es,
     root = r ++ k :: q ->
     Forall (fun x => String.length x <= Os.NAME_MAX) r ->
     lookup fs r = Some (Dir es) ->
     (Os.NAME_MAX < String.length k ->
      Os.scan_addons limit fs root = Raise OSError_ENAMETOOLONG) /\
     (String.length k <= Os.NAME_MAX -> assoc k es = None ->
      Os.scan_addons limit fs root = Raise FileNotFoundError)) /\
  (String.length (str root) < Os.PATH_MAX ->
   forall r q data,
     root = r ++ q ->
     Forall (fun x => String.length x <= Os.NAME_MAX) r ->
     lookup fs r = Some (File data) ->
     Os.scan_addons limit fs root = Raise NotADirectoryError) /\
  (forall results,
     Os.scan_addons limit fs root = Ok results ->
     is_dir fs root = true /\
     Forall (fun x => String.length x <= Os.NAME_MAX) root /\
     String.length (str root) < Os.PATH_MAX).
Proof.
  unfold Os.scan_addons, Os.iterdir, Os.scandir, Os.stat.
  split; [| split; [| split]].
  - intros H. apply Nat.leb_le in H. now rewrite H.
  - intros Hlen r k q es -> Hr Hl. apply Nat.leb_gt in Hlen. rewrite Hlen.
    rewrite (walk_app r fs (Dir es) (k :: q) Hr Hl). cbn [Os.walk].
    split.
    + intros Hk. apply Nat.ltb_lt in Hk. now rewrite Hk.
    + intros Hk Hnone. apply Nat.ltb_ge in Hk. now rewrite Hk, Hnone.
  - intros Hlen r q data -> Hr Hl. apply Nat.leb_gt in Hlen. rewrite Hlen.
    rewrite (walk_app r fs (File data) q Hr Hl).
    now destruct q.
  - intros results H.
    destruct (Os.PATH_MAX <=? String.length (str root))%nat eqn:Hlen;
      [discriminate |].
    apply Nat.leb_gt in Hlen.
    apply bind_Ok in H as (children & H & _).
    apply bind_Ok in H as (es & H & _).
    apply bind_Ok in H as (n & Hwalk & Hn).
    destruct n as [data | es0]; [discriminate |].
    apply walk_Ok in Hwalk as [Hnames Hl].
    unfold is_dir. rewrite Hl. auto.
Qed.

(** A root below a regular file, a root that is missing, a root with a
    name of 300 bytes. *)
Lemma scan_addons_raises_witness :
  Os.scan_addons 50 Samples.disk ["srv"; "addons"; "README.md"; "x"] =
    Raise NotADirectoryError /\
  Os.scan_addons 50 Samples.disk ["srv"; "nowhere"] = Raise FileNotFoundError /\
  Os.scan_addons 50 Samples.disk ["srv"; Samples.long_name] =
    Raise OSError_ENAMETOOLONG.
Proof.
  split; [| split].
  - destruct (scan_addons_raises 50 Samples.disk
                ["srv"; "addons"; "README.md"; "x"]) as (_ & _ & H & _).
    specialize (H ltac:(apply Nat.ltb_lt; reflexivity)).
    apply (H ["srv"; "addons"; "README.md"] ["x"] "addons");
      [reflexivity | | reflexivity].
    repeat constructor; apply Nat.leb_le; reflexivity.
  - destruct (scan_addons_raises 50 Samples.disk ["srv"; "nowhere"])
      as (_ & H & _).
    specialize (H ltac:(apply Nat.ltb_lt; reflexivity)).
    destruct (H ["srv"] "nowhere" []
                (match Samples.disk with
                 | Dir [(_, Dir es)] => es
                 | _ => []
                 end)) as [_ Hmissing];
      [reflexivity | | reflexivity |].
    + repeat constructor; apply Nat.leb_le; reflexivity.
    + apply Hmissing; [apply Nat.leb_le |]; reflexivity.
  - destruct (scan_addons_raises 50 Samples.disk ["srv"; Samples.long_name])
      as (_ & H & _).
    specialize (H ltac:(apply Nat.ltb_lt; reflexivity)).
    destruct (H ["srv"] Samples.long_name []
                (match Samples.disk with
                 | Dir [(_, Dir es)] => es
                 | _ => []
                 end)) as [Hlong _];
      [reflexivity | | reflexivity |].
    + repeat constructor; apply Nat.leb_le; reflexivity.
    + apply Hlong. apply Nat.ltb_lt. reflexivity.
Defined.

(** X9: how [write_csv] fails, and what its success implies.  A text of
    [PATH_MAX] bytes or more, and a new name longer than [NAME_MAX] in an
    existing directory, raise [ENAMETOOLONG]; a directory at the target
    raises [IsADirectoryError]; in these cases the tree is left as it was.
    When the target can be opened and the first row that is not valid
    UTF-8 is the one of record [r], [UnicodeEncodeError] is raised and the
    file is left with the header and the rows before [r].  When nothing is
    raised, the target was within the limits, it was a regular file or a
    free name in an existing directory, and every row was valid UTF-8. *)
Theorem write_csv_raises (fs : node) (results : list ClassificationRecord)
    (csv_path : path) :
  (Os.PATH_MAX <= String.length (str csv_path) ->
   Os.write_csv fs results csv_path = (fs, Some OSError_ENAMETOOLONG)) /\
  (reachable csv_path -> is_dir fs csv_path = true ->
   Os.write_csv fs results csv_path = (fs, Some IsADirectoryError)) /\
  (forall d k es,
     csv_path = join d k -> String.length (str csv_path) < Os.PATH_MAX ->
     Forall okname d -> lookup fs d = Some (Dir es) ->
     Os.NAME_MAX < String.length k ->
     Os.write_csv fs results csv_path = (fs, Some OSError_ENAMETOOLONG)) /\
  (forall before r after,
     results = before ++ r :: after ->
     Forall (fun x => Utf8.valid (writerow x) = true) before ->
     Utf8.valid (writerow r) = false ->
     reachable csv_path ->
     (exists old, lookup fs csv_path = Some (File old)) \/
     (exists d k, csv_path = join d k /\ is_directory fs d /\
                  lookup fs csv_path = None) ->
     exists fs',
       Os.write_csv fs results csv_path = (fs', Some UnicodeEncodeError) /\
       lookup fs' csv_path =
         Some (File (String.concat "" (writeheader :: map writerow before)))) /\
  (forall fs',
     Os.write_csv fs results csv_path = (fs', None) ->
     reachable csv_path /\
     ((exists old, lookup fs csv_path = Some (File old)) \/
      (exists d k, csv_path = join d k /\ is_directory fs d /\
                   lookup fs csv_path = None)) /\
     Forall (fun x => Utf8.valid (writerow x) = true) results).
Proof.
  split; [| split; [| split; [| split]]].
  - intros H. unfold Os.write_csv, Os.write.
    destruct (Os.accepted (csv_writes results)) as [ws failure].
    apply Nat.leb_le in H. now rewrite H.
  - intros Hreach Hdir. unfold Os.write_csv.
    destruct (Os.accepted (csv_writes results)) as [ws failure].
    now rewrite os_write_ideal, write_is_a_directory.
  - intros d k es -> Hlen Hd Hl Hk. unfold Os.write_csv, Os.write.
    destruct (Os.accepted (csv_writes results)) as [ws failure].
    apply Nat.leb_gt in Hlen. rewrite Hlen. unfold join.
    now rewrite (create_long_name _ k d fs es Hd Hl Hk).
  - intros before r after -> Hbefore Hr Hreach Hopen.
    destruct (write_succeeds
                (String.concat "" (writeheader :: map writerow before))
                csv_path fs Hopen) as [fs' Hw].
    exists fs'. unfold Os.write_csv.
    rewrite csv_writes_rows, map_app. cbn [map].
    change (writeheader :: map writerow before ++ writerow r :: map writerow after)
      with ((writeheader :: map writerow before) ++
            writerow r :: map writerow after).
    rewrite accepted_refused.
    + rewrite os_write_ideal, Hw by exact Hreach.
      split; [reflexivity | now apply write_lookup with fs].
    + constructor; [reflexivity |].
      apply Forall_forall. intros w Hw'.
      apply in_map_iff in Hw' as (x & <- & Hx).
      rewrite Forall_forall in Hbefore. now apply Hbefore.
    + exact Hr.
  - intros fs' H.
    apply os_write_csv_None in H as (Hreach & Hw & Hall).
    split; [exact Hreach |]. split.
    + unfold write_csv in Hw. now apply write_Ok in Hw.
    + rewrite csv_writes_rows in Hall. inversion Hall as [| ? ? _ Hrows]; subst.
      apply Forall_forall. intros x Hx.
      rewrite Forall_forall in Hrows. apply Hrows. now apply in_map.
Qed.

(** A directory in the way, and a new name of 300 bytes. *)
Lemma write_csv_raises_witness :
  Os.write_csv Samples.disk [] ["srv"; "addons"; "utils"] =
    (Samples.disk, Some IsADirectoryError) /\
  Os.write_csv Samples.disk [] ["srv"; Samples.long_name] =
    (Samples.disk, Some OSError_ENAMETOOLONG).
Proof.
  split.
  - apply (write_csv_raises Samples.disk [] ["srv"; "addons"; "utils"]);
      [| reflexivity].
    split; [repeat constructor; apply Nat.leb_le; reflexivity
           | apply Nat.ltb_lt; reflexivity].
  - destruct (write_csv_raises Samples.disk [] ["srv"; Samples.long_name])
      as (_ & _ & H & _).
    apply (H ["srv"] Samples.long_name
             (match Samples.disk with
              | Dir [(_, Dir es)] => es
              | _ => []
              end)); try reflexivity.
    + apply Nat.ltb_lt. reflexivity.
    + repeat constructor; apply Nat.leb_le; reflexivity.
    + apply Nat.ltb_lt. reflexivity.
Defined.

(** X10: [main] can succeed only with a script path of at least two
    components, with existing directories two levels above the script and
    at the place of the script, and with no directory called
    [workbench_report.csv] beside the script. *)
Theorem main_succeeds_only_if (fs : node) (script_path : path) (fs' : node)
    (out : list string) :
  main fs script_path = Ok (fs', out) ->
  exists root k s,
    script_path = root ++ [k; s] /\
    is_dir fs root = true /\
    is_dir fs (join root k) = true /\
    is_dir fs (join (join root k) "workbench_report.csv") = false.
Proof.
  intros Hrun.
  destruct (main_Ok _ _ _ _ Hrun) as (root & k & s & results & Hp & Hscan & Hw & _).
  exists root, k, s. split; [exact Hp |].
  apply scan_addons_Ok in Hscan as (es & Hroot & _).
  split; [unfold is_dir; now rewrite Hroot |].
  apply write_Ok in Hw as [[old Hfile] | (d & k' & Hd & Hdir & Hnone)].
  - split.
    + rewrite lookup_join in Hfile. unfold is_dir.
      destruct (lookup fs (join root k)) as [[x | es0] |]; try discriminate.
      reflexivity.
    + unfold is_dir. fold report_name. now rewrite Hfile.
  - apply app_inj_tail in Hd as [<- _].
    split; [now apply is_dir_iff |].
    unfold is_dir. fold report_name. now rewrite Hnone.
Qed.

Lemma main_succeeds_only_if_witness :
  exists root k s,
    Samples.script_path = root ++ [k; s] /\
    is_dir Samples.disk root = true /\
    is_dir Samples.disk (join root k) = true.
Proof.
  destruct (main Samples.disk Samples.script_path) as [[fs' out] | e] eqn:Hrun;
    [| vm_compute in Hrun; discriminate Hrun].
  destruct (main_succeeds_only_if _ _ _ _ Hrun)
    as (root & k & s & Hp & Hroot & Hdir & _).
  exists root, k, s. auto.
Defined.

(** X16: a successful run scans the directory two levels above the script
    once and uses the records twice: the report that it leaves beside the
    script holds the header and the rows of exactly these records, and
    what it prints is the two banner texts followed by the summary of the
    same records. *)
Theorem main_report_and_summary (fs : node) (script_path : path) (fs' : node)
    (out : list string) :
  main fs script_path = Ok (fs', out) ->
  exists root results,
    parents_1 script_path = Ok root /\
    scan_addons fs root = Ok results /\
    lookup fs' (join (parent script_path) "workbench_report.csv") =
      Some (File (String.concat "" (writeheader :: map writerow results))) /\
    out = [("Scanning: " ++ str root)%string;
           ("CSV written to: " ++
            str (join (parent script_path) "workbench_report.csv"))%string]
          ++ print_summary results.
Proof.
  intros Hrun.
  destruct (main_Ok _ _ _ _ Hrun) as (root & k & s & results & -> & Hscan & Hw & ->).
  assert (Hparent : parent (root ++ [k; s]) = join root k).
  { unfold parent, join. change [k; s] with ([k] ++ [s]).
    now rewrite app_assoc, removelast_last. }
  exists root, results. rewrite Hparent. fold report_name.
  split; [apply parents_1_app |].
  split; [exact Hscan |].
  split; [rewrite <- csv_writes_rows; now apply write_lookup with fs |].
  reflexivity.
Qed.

Lemma main_report_and_summary_witness :
  exists fs' out results,
    main Samples.disk Samples.script_path = Ok (fs', out) /\
    scan_addons Samples.disk Samples.root = Ok results /\
    lookup fs' ["srv"; "addons"; "utils"; "workbench_report.csv"] =
      Some (File (String.concat "" (writeheader :: map writerow results))).
Proof.
  destruct (main Samples.disk Samples.script_path) as [[fs' out] | e] eqn:Hrun;
    [| vm_compute in Hrun; discriminate Hrun].
  destruct (main_report_and_summary _ _ _ _ Hrun)
    as (root & results & Hroot & Hscan & Hfile & _).
  injection Hroot as <-.
  exists fs', out, results. split; [reflexivity |]. split; assumption.
Defined.



(** ** What the calls return when they return *)

Section Soundness.

Variable fs : node.

















End Soundness.




